(** * Feature-flag resolution and conditional mounting

    A shallow embedding of the flag engine of the trunk-based demo:

    - [FeatureFlagService] (api/featureFlags.js): the server-side loader,
      resolver, reload and [getFeatureRouter];
    - the mount pass of api/server.js (listed in TRUNK_BASED_DEMO.md);
    - [FeatureFlagManager] (js/featureFlags.js): the client mirror and its
      DOM sweep.

    The program is JavaScript, so documents are untyped trees and every
    property read may raise [TypeError].  Module [Js] fixes the fragment of
    the language the engine relies on; the later modules follow the source
    method by method. *)

From Stdlib Require Import Floats Ascii.
From stdpp Require Import base strings list gmap pretty.

Local Set Warnings "-register-all".

(** ** The JavaScript fragment *)

Module Js.

(** Values that [yaml.load] and [response.json()] hand to the program, plus
    [JNative]: a built-in function or object of the runtime, reached through
    the prototype chain ([({}).constructor], [[].map], ...).  Objects keep
    their own enumerable properties in enumeration order. *)
Inductive value : Type :=
| JUndefined
| JNull
| JBool (b : bool)
| JNumber (x : float)
| JString (s : string)
| JArray (items : list value)
| JObject (props : list (string * value))
| JNative (name : string).

(** What a [throw] of the runtime or of a library carries: an error object
    with its message.  (What a module's own top level throws is any value,
    see [Host.module_load].) *)
Inductive exn : Type :=
| TypeError (msg : string)
| HostError (msg : string).

(** Completion of an evaluation: a value, or an exception in flight. *)
Inductive completion (A : Type) : Type :=
| Return (a : A)
| Throw (e : exn).
Arguments Return {A} a.
Arguments Throw {A} e.

#[global] Instance completion_ret : MRet completion := @Return.
#[global] Instance completion_bind : MBind completion :=
  λ A B f c, match c with Return a => f a | Throw e => Throw e end.
#[global] Instance completion_fmap : FMap completion :=
  λ A B f c, match c with Return a => Return (f a) | Throw e => Throw e end.

(** [ToBoolean]: [undefined], [null], [false], [+0], [-0], [NaN] and the
    empty string are falsy. *)
Definition truthy (v : value) : bool :=
  match v with
  | JUndefined | JNull => false
  | JBool b => b
  | JNumber x => negb (PrimFloat.eqb x 0 || negb (PrimFloat.eqb x x))
  | JString s => negb (String.eqb s "")
  | JArray _ | JObject _ | JNative _ => true
  end.

(** [v === true]. *)
Definition is_true (v : value) : bool :=
  match v with JBool true => true | _ => false end.

(** [a || b] on values. *)
Definition or_else (a b : value) : value := if truthy a then a else b.

(** First binding of [k] in a property list. *)
Fixpoint assoc (k : string) (props : list (string * value)) : option value :=
  match props with
  | [] => None
  | (k', v) :: rest => if String.eqb k' k then Some v else assoc k rest
  end.

(** Property keys of array and string elements are the canonical decimal
    spellings of the indices: ["0"], ["1"], ... *)
Definition index_key (i : nat) : string := pretty i.

Definition index_of_key (k : string) (len : nat) : option nat :=
  List.find (λ i, String.eqb (index_key i) k) (seq 0 len).

Definition number_of_nat (n : nat) : value :=
  JNumber (PrimFloat.of_uint63 (Uint63.of_Z (Z.of_nat n))).

Definition char_at (s : string) (i : nat) : option value :=
  match String.get i s with
  | Some c => Some (JString (String c EmptyString))
  | None => None
  end.

(** Own properties: the fields of an object, the elements and [length] of
    an array, the characters and [length] of a string. *)
Definition own (v : value) (k : string) : option value :=
  match v with
  | JObject props => assoc k props
  | JArray items =>
      match index_of_key k (length items) with
      | Some i => items !! i
      | None => if String.eqb k "length"
                then Some (number_of_nat (length items)) else None
      end
  | JString s =>
      match index_of_key k (String.length s) with
      | Some i => char_at s i
      | None => if String.eqb k "length"
                then Some (number_of_nat (String.length s)) else None
      end
  | _ => None
  end.

(** Own enumerable string keys, as [Object.keys] lists them. *)
Definition own_keys (v : value) : list string :=
  match v with
  | JObject props => props.*1
  | JArray items => index_key <$> seq 0 (length items)
  | JString s => index_key <$> seq 0 (String.length s)
  | _ => []
  end.

(** Members of the built-in prototypes (ECMAScript 2023 with Annex B). *)
Definition Object_prototype : list string :=
  [ "constructor"; "__defineGetter__"; "__defineSetter__"; "hasOwnProperty";
    "__lookupGetter__"; "__lookupSetter__"; "isPrototypeOf";
    "propertyIsEnumerable"; "toString"; "valueOf"; "__proto__";
    "toLocaleString" ].

Definition Array_prototype : list string :=
  [ "at"; "concat"; "copyWithin"; "fill"; "find"; "findIndex"; "findLast";
    "findLastIndex"; "lastIndexOf"; "pop"; "push"; "reverse"; "shift";
    "unshift"; "slice"; "sort"; "splice"; "includes"; "indexOf"; "join";
    "keys"; "entries"; "values"; "forEach"; "filter"; "flat"; "flatMap";
    "map"; "every"; "some"; "reduce"; "reduceRight"; "toReversed";
    "toSorted"; "toSpliced"; "with" ].

Definition String_prototype : list string :=
  [ "anchor"; "at"; "big"; "blink"; "bold"; "charAt"; "charCodeAt";
    "codePointAt"; "concat"; "endsWith"; "fontcolor"; "fontsize"; "fixed";
    "includes"; "indexOf"; "isWellFormed"; "italics"; "lastIndexOf"; "link";
    "localeCompare"; "match"; "matchAll"; "normalize"; "padEnd"; "padStart";
    "repeat"; "replace"; "replaceAll"; "search"; "slice"; "small"; "split";
    "strike"; "sub"; "substr"; "substring"; "sup"; "startsWith";
    "toWellFormed"; "trim"; "trimStart"; "trimLeft"; "trimEnd"; "trimRight";
    "toLocaleLowerCase"; "toLocaleUpperCase"; "toLowerCase"; "toUpperCase" ].

Definition Number_prototype : list string :=
  [ "toExponential"; "toFixed"; "toPrecision" ].

Definition Function_prototype : list string :=
  [ "apply"; "bind"; "call"; "arguments"; "caller"; "length"; "name" ].

(** The prototype chain of a value ends at [Object.prototype]. *)
Definition prototype_chain (v : value) : list string :=
  match v with
  | JUndefined | JNull => []
  | JBool _ | JObject _ => Object_prototype
  | JNumber _ => Number_prototype ++ Object_prototype
  | JString _ => String_prototype ++ Object_prototype
  | JArray _ => Array_prototype ++ Object_prototype
  | JNative _ => Function_prototype ++ Object_prototype
  end.

Definition mem (k : string) (ks : list string) : bool :=
  existsb (String.eqb k) ks.

(** Built-ins are opaque: an inherited member is some [JNative]. *)
Definition inherited (v : value) (k : string) : value :=
  if mem k (prototype_chain v) then JNative k else JUndefined.

(** [v[k]] and [v.k]: reading from [undefined] or [null] throws, a missing
    property reads as [undefined]. *)
Definition get (v : value) (k : string) : completion value :=
  match v with
  | JUndefined | JNull =>
      Throw (TypeError ("Cannot read properties of undefined or null, reading " +:+ k))
  | _ => Return (default (inherited v k) (own v k))
  end.

(** [Object.keys(v)]. *)
Definition Object_keys (v : value) : completion (list string) :=
  match v with
  | JUndefined | JNull =>
      Throw (TypeError "Cannot convert undefined or null to object")
  | _ => Return (own_keys v)
  end.

(** [keys.filter(p)] where the callback may throw: the first exception
    aborts the whole call. *)
Fixpoint filterM (p : string → completion bool) (keys : list string)
  : completion (list string) :=
  match keys with
  | [] => Return []
  | k :: rest =>
      b ← p k;
      kept ← filterM p rest;
      Return (if b : bool then k :: kept else kept)
  end.

(** [{}] and the fail-safe manifest [{ features: {} }]. *)
Definition empty_object : value := JObject [].
Definition empty_manifest : value := JObject [("features", empty_object)].

End Js.

(** ** The host: file system, YAML parser, module loader, HTTP routing *)

Module Host.
Import Js.

(** What [express.json()] raises when it cannot take a request's body: the
    status the error carries and its message. *)
Record body_failure : Type := { failure_status : nat; failure_message : string }.

(** A request as the routing sees it: its method, the path of its URL, and
    what [express.json()] makes of its body ([None]: there is no JSON body,
    or it parses). *)
Record request : Type := {
  method : string;
  path : string;
  body_error : option body_failure;
}.
Record response : Type := { status : nat; body : value }.

(** A handler group ([express.Router()]): given the method and the path
    below its mount point it answers, or passes the request on ([next()]).
    An error raised inside the group ends at the application's error handler
    and counts as the group's answer. *)
Definition router : Type := string → string → option response.

(** What a module exports: a function (a handler group is one) or any other
    value. *)
Inductive exported : Type :=
| Function (r : router)
| NotFunction (v : value).

(** What [require(p)] does: it returns the module's exports, or it throws the
    value the module's top level threw.  Any value can be thrown, [null] and
    [undefined] included; the values of this fragment hold plain data, no
    accessor properties. *)
Inductive module_load : Type :=
| Exports (x : exported)
| Raises (thrown : value).

Inductive file : Type :=
| Readable (contents : string)
| Unreadable.

(** The collaborators the service calls: [fs], [js-yaml], [require] and the
    directory of the service's module ([__dirname]). *)
Record host : Type := {
  dirname : string;
  files : gmap string file;
  yaml_load : string → completion value;
  require : string → module_load;
}.

(** [path.join]: segments joined by the separator; the file system is
    looked up under the path so spelled. *)
Definition path_join (segments : list string) : string :=
  String.concat "/" segments.

(** [fs.readFileSync(p, 'utf8')]. *)
Definition readFileSync (h : host) (p : string) : completion string :=
  match files h !! p with
  | Some (Readable contents) => Return contents
  | Some Unreadable => Throw (HostError ("EACCES: permission denied, open " +:+ p))
  | None => Throw (HostError ("ENOENT: no such file or directory, open " +:+ p))
  end.

(** [fs.existsSync(p)]. *)
Definition existsSync (h : host) (p : string) : bool :=
  bool_decide (is_Some (files h !! p)).

End Host.

(** ** api/featureFlags.js: the server-side service *)

Module FeatureFlagService.
Import Js Host.

Record service : Type := {
  environment : string;
  config : value;
  configPath : option string;
}.

Definition set_config (s : service) (c : value) : service :=
  {| environment := environment s; config := c; configPath := configPath s |}.

Definition set_configPath (s : service) (p : string) : service :=
  {| environment := environment s; config := config s; configPath := Some p |}.

Definition configFileName (env : string) : string :=
  if String.eqb env "stage" then "features.stage.yml" else "features.prod.yml".

Definition config_path (h : host) (env : string) : string :=
  path_join [dirname h; ".."; "config"; configFileName env].

(** The [try] block of [loadConfiguration], with the state each statement
    leaves behind.  The last log line evaluates
    [Object.keys(this.config.features || {})], which throws when the
    document is [null] or [undefined]. *)
Definition try_load (h : host) (s : service) : service * completion unit :=
  let s1 := set_configPath s (config_path h (environment s)) in
  match readFileSync h (config_path h (environment s)) with
  | Throw e => (s1, Throw e)
  | Return fileContents =>
      match yaml_load h fileContents with
      | Throw e => (s1, Throw e)
      | Return doc =>
          let s2 := set_config s1 doc in
          (s2, features ← get (config s2) "features";
               _ ← Object_keys (or_else features empty_object);
               Return ())
      end
  end.

Definition loadConfiguration (h : host) (s : service) : service :=
  match try_load h s with
  | (s', Return _) => s'
  | (s', Throw _) => set_config s' empty_manifest   (* Fail safe: empty config *)
  end.

(** [new FeatureFlagService(environment)]. *)
Definition new (h : host) (env : string) : service :=
  loadConfiguration h {| environment := env; config := JNull; configPath := None |}.

Definition isEnabled (s : service) (featureName : string) : completion bool :=
  if negb (truthy (config s)) then Return false else
  features ← get (config s) "features";
  if negb (truthy features) then Return false else
  feature ← get features featureName;
  if negb (truthy feature) then Return false else
  enabled ← get feature "enabled";
  Return (is_true enabled).

Definition getFeatureInfo (s : service) (featureName : string) : completion value :=
  if negb (truthy (config s)) then Return JNull else
  features ← get (config s) "features";
  if negb (truthy features) then Return JNull else
  feature ← get features featureName;
  Return (or_else feature JNull).

Definition getAllFeatures (s : service) : completion value :=
  if negb (truthy (config s)) then Return empty_object else
  features ← get (config s) "features";
  if negb (truthy features) then Return empty_object else
  Return features.

Definition getEnabledFeatures (s : service) : completion (list string) :=
  if negb (truthy (config s)) then Return [] else
  features ← get (config s) "features";
  if negb (truthy features) then Return [] else
  keys ← Object_keys features;
  filterM (λ key, feature ← get features key;
                  enabled ← get feature "enabled";
                  Return (is_true enabled)) keys.

Definition getEnvironment (s : service) : string := environment s.

Definition getConfig (s : service) : value := or_else (config s) empty_manifest.

Definition reload (h : host) (s : service) : service := loadConfiguration h s.

Definition route_path (h : host) (featureName : string) : string :=
  path_join [dirname h; "routes"; featureName +:+ ".js"].

(** [None] is [null].  Of the [try] block only [require] can throw; the
    [catch] reads [error.message] for its log line before it returns [null],
    and that read throws when the value caught is [null] or [undefined]. *)
Definition getFeatureRouter (h : host) (s : service) (featureName : string)
  : completion (option exported) :=
  enabled ← isEnabled s featureName;
  if negb enabled then Return None else
  if negb (existsSync h (route_path h featureName)) then Return None else
  match require h (route_path h featureName) with
  | Exports x => Return (Some x)
  | Raises error => _ ← get error "message"; Return None
  end.

End FeatureFlagService.

(** ** api/server.js: the application and its mount pass *)

Module Server.
Import Js Host FeatureFlagService.

(** What [app.use], [app.get] and [app.post] register, in registration
    order: the two global middlewares, a route, a handler group under a
    prefix, a handler for everything, the error handler. *)
Inductive layer : Type :=
| Cors
| Json
| Route (verb at_path : string) (handler : request → response)
| Use (prefix : string) (r : router)
| Fallback (handler : request → response)
| ErrorHandler.

Fixpoint strip_prefix (p s : string) : option string :=
  match p, s with
  | EmptyString, _ => Some s
  | String c p', String d s' => if Ascii.eqb c d then strip_prefix p' s' else None
  | String _ _, EmptyString => None
  end.

(** [toLowerCase] and [toUpperCase] on the letters of a method or a path. *)
Definition lower (c : ascii) : ascii :=
  let n := nat_of_ascii c in
  if (65 <=? n)%nat && (n <=? 90)%nat then ascii_of_nat (n + 32) else c.

Definition upper (c : ascii) : ascii :=
  let n := nat_of_ascii c in
  if (97 <=? n)%nat && (n <=? 122)%nat then ascii_of_nat (n - 32) else c.

Fixpoint lower_string (s : string) : string :=
  match s with
  | EmptyString => EmptyString
  | String c rest => String (lower c) (lower_string rest)
  end.

Fixpoint upper_string (s : string) : string :=
  match s with
  | EmptyString => EmptyString
  | String c rest => String (upper c) (upper_string rest)
  end.

(** The start of [s] that spells [p] in whatever case, taken off. *)
Fixpoint strip_prefix_ci (p s : string) : option string :=
  match p, s with
  | EmptyString, _ => Some s
  | String c p', String d s' =>
      if Ascii.eqb (lower c) (lower d) then strip_prefix_ci p' s' else None
  | String _ _, EmptyString => None
  end.

(** [app.use(prefix, ...)]: Express in its default setting matches the
    prefix in whatever case, with or without one slash after it, when the
    path ends there or goes on with a slash; the router is handed what
    remains, which starts with a slash. *)
Definition below (prefix path : string) : option string :=
  match strip_prefix_ci prefix path with
  | Some EmptyString => Some "/"
  | Some (String "/"%char (String "/"%char rest)) => Some (String "/"%char rest)
  | Some (String "/"%char rest) => Some (String "/"%char rest)
  | _ => None
  end.

(** [app.get(at_path, ...)] and [app.post(at_path, ...)] match the path in
    whatever case, with or without one slash after it. *)
Definition route_matches (at_path path : string) : bool :=
  String.eqb (lower_string path) (lower_string at_path)
  || String.eqb (lower_string path) (lower_string at_path +:+ "/").

(** A route answers its own method, and a GET route answers HEAD too. *)
Definition handles (verb m : string) : bool :=
  String.eqb (lower_string m) (lower_string verb)
  || (String.eqb (lower_string verb) "get" && String.eqb (lower_string m) "head").

(** [cors()] with its defaults ends every OPTIONS request itself. *)
Definition preflight (req : request) : bool :=
  String.eqb (upper_string (method req)) "OPTIONS".

Definition no_content : response := {| status := 204; body := JUndefined |}.

(** Express's own last resort when no layer answers, and when an error
    meets no error handler. *)
Definition finalhandler (req : request) : response :=
  {| status := 404; body := JString ("Cannot " +:+ method req +:+ " " +:+ path req) |}.

Definition finalhandler_error (failure : body_failure) : response :=
  {| status := failure_status failure; body := JString (failure_message failure) |}.

(** The error handler registered last. *)
Definition internal_server_error (failure : body_failure) : response :=
  {| status := 500;
     body := JObject
       [ ("error", JString "Internal Server Error");
         ("message", JString (failure_message failure)) ] |}.

(** [next(err)]: the layers that are no error handlers are passed over. *)
Fixpoint dispatch_error (app : list layer) (failure : body_failure) : response :=
  match app with
  | [] => finalhandler_error failure
  | ErrorHandler :: _ => internal_server_error failure
  | _ :: rest => dispatch_error rest failure
  end.

Fixpoint dispatch (app : list layer) (req : request) : response :=
  match app with
  | [] => finalhandler req
  | Cors :: rest => if preflight req then no_content else dispatch rest req
  | Json :: rest =>
      match body_error req with
      | Some failure => dispatch_error rest failure
      | None => dispatch rest req
      end
  | ErrorHandler :: rest => dispatch rest req
  | Route verb at_path handler :: rest =>
      if route_matches at_path (path req) && handles verb (method req)
      then handler req else dispatch rest req
  | Use prefix r :: rest =>
      match below prefix (path req) with
      | Some sub =>
          match r (method req) sub with
          | Some res => res
          | None => dispatch rest req
          end
      | None => dispatch rest req
      end
  | Fallback handler :: _ => handler req
  end.

(** The 404 handler registered after the mount pass. *)
Definition not_found (req : request) : response :=
  {| status := 404;
     body := JObject
       [ ("error", JString "Not Found");
         ("message", JString ("Route " +:+ method req +:+ " " +:+ path req +:+ " not found"));
         ("hint", JString "This feature might be disabled via feature flags") ] |}.

(** Handlers of the routes that are always available; their answers do not
    concern the flag engine.  The task router is what [./routes/tasks]
    exports, taken to have loaded. *)
Record core : Type := {
  health : request → response;
  feature_flags : request → response;
  feature_flags_reload : request → response;
  tasksRouter : router;
}.

Definition core_layers (c : core) : list layer :=
  [ Cors; Json;
    Route "GET" "/api/health" (health c);
    Route "GET" "/api/feature-flags" (feature_flags c);
    Route "POST" "/api/feature-flags/reload" (feature_flags_reload c);
    Use "/api/tasks" (tasksRouter c) ].

(** [if (x)] on what [getFeatureRouter] returned. *)
Definition truthy_export (x : exported) : bool :=
  match x with
  | Function _ => true
  | NotFunction v => truthy v
  end.

(** [app.use(prefix, x)] registers a function and throws on anything else. *)
Definition app_use (app : list layer) (prefix : string) (x : exported)
  : completion (list layer) :=
  match x with
  | Function r => Return (app ++ [Use prefix r])
  | NotFunction _ => Throw (TypeError "Router.use() requires a middleware function")
  end.

(** One capability of the mount pass:
    [const r = featureFlags.getFeatureRouter(name); if (r) app.use(prefix, r)]. *)
Definition mount (h : host) (featureFlags : service) (app : list layer)
    (featureName prefix : string) : completion (list layer) :=
  r ← getFeatureRouter h featureFlags featureName;
  match r with
  | Some x => if truthy_export x then app_use app prefix x else Return app
  | None => Return app
  end.

(** The same statement for each capability in turn. *)
Fixpoint mount_pass (h : host) (featureFlags : service) (app : list layer)
    (capabilities : list (string * string)) : completion (list layer) :=
  match capabilities with
  | [] => Return app
  | (featureName, prefix) :: rest =>
      app' ← mount h featureFlags app featureName prefix;
      mount_pass h featureFlags app' rest
  end.

Definition capabilities : list (string * string) :=
  [ ("advanced_search", "/api/search"); ("export_csv", "/api/export") ].

(** [process.env.NODE_ENV || 'stage']. *)
Definition NODE_ENV (env : option string) : string :=
  match env with
  | Some e => if String.eqb e "" then "stage" else e
  | None => "stage"
  end.

(** The start-up path of the server: the service, the mount pass, the last
    two handlers, and the callback of [app.listen], which lists the enabled
    features; what it throws nobody catches.  The port is taken to be free. *)
Definition boot (h : host) (env : option string) (c : core)
  : completion (service * list layer) :=
  let featureFlags := new h (NODE_ENV env) in
  app ← mount_pass h featureFlags (core_layers c) capabilities;
  enabledFeatures ← getEnabledFeatures featureFlags;
  Return (featureFlags, app ++ [Fallback not_found; ErrorHandler]).

Definition use_prefix (l : layer) : option string :=
  match l with Use prefix _ => Some prefix | _ => None end.

(** The path prefixes at which some handler group is bound. *)
Definition bound_prefixes (app : list layer) : gset string :=
  list_to_set (omap use_prefix app).

End Server.

(** ** js/featureFlags.js: the client mirror *)

Module FeatureFlagManager.
Import Js.

Record manager : Type := {
  features : value;
  environment : string;
  loaded : bool;
}.

Definition set_features (m : manager) (f : value) : manager :=
  {| features := f; environment := environment m; loaded := loaded m |}.
Definition set_environment (m : manager) (e : string) : manager :=
  {| features := features m; environment := e; loaded := loaded m |}.
Definition set_loaded (m : manager) (b : bool) : manager :=
  {| features := features m; environment := environment m; loaded := b |}.

(** [new FeatureFlagManager()]. *)
Definition new : manager :=
  {| features := empty_object; environment := "production"; loaded := false |}.

(** What [await fetch(configPath)] and [await response.json()] come to. *)
Inductive fetched : Type :=
| Rejected (e : exn)
| Response (ok : bool) (json : completion value).

(** [hay.includes(needle)]. *)
Fixpoint includes (hay needle : string) : bool :=
  match Server.strip_prefix needle hay with
  | Some _ => true
  | None => match hay with
            | EmptyString => false
            | String _ rest => includes rest needle
            end
  end.

(** The first statement of [init]: the argument when it is truthy, else
    what [window.location.pathname] suggests. *)
Definition auto_detect (pathname : string) : string :=
  if includes pathname "/stage/" then "stage"
  else if includes pathname "/production/" then "production"
  else "production".

Definition detect_environment (arg : option string) (pathname : string) : string :=
  match arg with
  | Some e => if String.eqb e "" then auto_detect pathname else e
  | None => auto_detect pathname
  end.

(** The callback of the log line of [init]: [k => this.features[k].enabled]. *)
Definition active (f : value) (k : string) : completion bool :=
  feature ← get f k;
  enabled ← get feature "enabled";
  Return (truthy enabled).

(** The [try] block of [init] with the state each statement leaves behind;
    the early [return] on a response that is not OK is inside it. *)
Definition try_init (m : manager) (response : fetched) : manager * completion unit :=
  match response with
  | Rejected e => (m, Throw e)
  | Response false _ => (set_features m empty_object, Return ())
  | Response true (Throw e) => (m, Throw e)
  | Response true (Return config) =>
      match get config "features" with
      | Throw e => (m, Throw e)
      | Return f =>
          let m2 := set_loaded (set_features m (or_else f empty_object)) true in
          (m2, keys ← Object_keys (features m2);
               _ ← filterM (active (features m2)) keys;
               Return ())
      end
  end.

Definition init (m : manager) (arg : option string) (pathname : string)
    (response : fetched) : manager :=
  let m1 := set_environment m (detect_environment arg pathname) in
  match try_init m1 response with
  | (m', Return _) => m'
  | (m', Throw _) => set_features m' empty_object
  end.

Definition isEnabled (m : manager) (featureName : string) : completion bool :=
  feature ← get (features m) featureName;
  if negb (truthy feature) then Return false else
  enabled ← get feature "enabled";
  Return (is_true enabled).

Definition getEnabledFeatures (m : manager) : completion (list string) :=
  keys ← Object_keys (features m);
  filterM (active (features m)) keys.

Definition getFeatureInfo (m : manager) (featureName : string) : completion value :=
  feature ← get (features m) featureName;
  Return (or_else feature JNull).

Definition getEnvironment (m : manager) : string := environment m.

Definition getAllFeatures (m : manager) : value := features m.

(** The part of a DOM element the sweep touches. *)
Record element : Type := {
  attributes : list (string * string);
  display : string;
  classList : list string;
}.

Fixpoint getAttribute (attrs : list (string * string)) (name : string) : option string :=
  match attrs with
  | [] => None
  | (k, v) :: rest => if String.eqb k name then Some v else getAttribute rest name
  end.

(** [classList.add(c)]. *)
Definition classList_add (cl : list string) (c : string) : list string :=
  if mem c cl then cl else cl ++ [c].

(** The body of the [forEach] for an element that
    [querySelectorAll('[data-feature]')] selects; other elements are left
    as they are. *)
Definition sweep (m : manager) (el : element) : completion element :=
  match getAttribute (attributes el) "data-feature" with
  | None => Return el
  | Some featureName =>
      enabled ← isEnabled m featureName;
      Return (if enabled : bool
              then {| attributes := attributes el; display := "";
                      classList := classList_add (classList el) "feature-enabled" |}
              else {| attributes := attributes el; display := "none";
                      classList := classList_add (classList el) "feature-disabled" |})
  end.

Definition applyFeatureFlags (m : manager) (document : list element)
  : completion (list element) :=
  mapM (sweep m) document.

End FeatureFlagManager.

(** ** Vocabulary of the statements *)

Module Spec.
Import Js Host.

(** [n] is a key of the flag map and its record's [enabled] is the boolean
    [true]. *)
Definition flag_on (features : value) (n : string) : Prop :=
  n ∈ own_keys features ∧
  ∃ record, own features n = Some record ∧
            own record "enabled" = Some (JBool true).

(** A record of the manifest interface: an object whose [enabled] is a
    boolean. *)
Definition well_formed_record (r : value) : bool :=
  match r with
  | JObject props =>
      match assoc "enabled" props with Some (JBool _) => true | _ => false end
  | _ => false
  end.

(** A document of the manifest interface:
    [{ features: { <name>: { enabled: <bool>, ... }, ... } }]. *)
Definition well_formed (doc : value) : bool :=
  match doc with
  | JObject props =>
      match assoc "features" props with
      | Some (JObject records) => forallb (λ kv, well_formed_record kv.2) records
      | _ => false
      end
  | _ => false
  end.

Definition nullish (v : value) : bool :=
  match v with JUndefined | JNull => true | _ => false end.

(** The source of environment [env] reads and parses to [doc]. *)
Definition parses_to (h : host) (env : string) (doc : value) : Prop :=
  ∃ contents,
    readFileSync h (FeatureFlagService.config_path h env) = Return contents
    ∧ yaml_load h contents = Return doc.

(** The source is missing or unreadable, or the parser rejects it. *)
Inductive source_broken (h : host) (env : string) : Prop :=
| source_unavailable e :
    readFileSync h (FeatureFlagService.config_path h env) = Throw e →
    source_broken h env
| source_unparsable contents e :
    readFileSync h (FeatureFlagService.config_path h env) = Return contents →
    yaml_load h contents = Throw e →
    source_broken h env.

(** The failures the loader's [catch] sees: a broken source, or a document
    that is [null] or [undefined] (an empty file), which makes the log line
    throw. *)
Inductive load_raises (h : host) (env : string) : Prop :=
| raises_broken : source_broken h env → load_raises h env
| raises_nullish doc :
    parses_to h env doc → nullish doc = true → load_raises h env.

(** Load failures as the specification counts them: the above, and content
    that parses but does not follow the manifest interface. *)
Inductive load_failure (h : host) (env : string) : Prop :=
| failure_broken : source_broken h env → load_failure h env
| failure_malformed doc :
    parses_to h env doc → well_formed doc = false → load_failure h env.

(** The route module of capability [name] is there and exports the handler
    group [r]. *)
Definition provides (h : host) (name : string) (r : router) : Prop :=
  existsSync h (FeatureFlagService.route_path h name) = true
  ∧ require h (FeatureFlagService.route_path h name) = Exports (Function r).

(** The gating decision for one capability: its handler group when its flag
    is enabled and its route module is there, loads and exports a function. *)
Definition decision (h : host) (s : FeatureFlagService.service) (name : string)
  : option router :=
  match FeatureFlagService.isEnabled s name with
  | Return true =>
      if existsSync h (FeatureFlagService.route_path h name) then
        match require h (FeatureFlagService.route_path h name) with
        | Exports (Function r) => Some r
        | _ => None
        end
      else None
  | _ => None
  end.

(** The loads the mount statement does not survive: a module that throws
    [null] or [undefined], and one that exports a truthy value other than a
    function. *)
Definition fatal_load (m : module_load) : bool :=
  match m with
  | Raises thrown => nullish thrown
  | Exports (NotFunction v) => truthy v
  | Exports (Function _) => false
  end.

(** The mount statement of capability [name] throws. *)
Definition mount_dies (h : host) (s : FeatureFlagService.service) (name : string) : bool :=
  match FeatureFlagService.isEnabled s name with
  | Return true =>
      existsSync h (FeatureFlagService.route_path h name)
      && fatal_load (require h (FeatureFlagService.route_path h name))
  | _ => false
  end.

(** The layers a mount pass over [caps] adds, in invocation order. *)
Definition mounted_layers (h : host) (s : FeatureFlagService.service)
    (caps : list (string * string)) : list Server.layer :=
  omap (λ cap, Server.Use cap.2 <$> decision h s cap.1) caps.

(** The record the manifest holds for flag [n], if any. *)
Definition flag_record (s : FeatureFlagService.service) (n : string) : option value :=
  features ← own (FeatureFlagService.config s) "features";
  own features n.

(** The fetch of the published flag map fails: the request is rejected,
    the response is not OK, or its body does not parse. *)
Definition fetch_failed (r : FeatureFlagManager.fetched) : bool :=
  match r with
  | FeatureFlagManager.Rejected _ => true
  | FeatureFlagManager.Response false _ => true
  | FeatureFlagManager.Response true (Throw _) => true
  | FeatureFlagManager.Response true (Return _) => false
  end.

(** An element carries a [data-feature] attribute. *)
Definition tagged (el : FeatureFlagManager.element) : Prop :=
  is_Some (FeatureFlagManager.getAttribute (FeatureFlagManager.attributes el) "data-feature").

(** The [enabled] field of flag [n] in a flag map given by its records. *)
Definition gate (records : list (string * value)) (n : string) : option value :=
  record ← assoc n records;
  own record "enabled".

(** The service holds a manifest whose flag map consists of [records], each
    of them an object. *)
Definition manifest_of (s : FeatureFlagService.service)
    (records : list (string * value)) : Prop :=
  own (FeatureFlagService.config s) "features" = Some (JObject records)
  ∧ ∀ n r, assoc n records = Some r → ∃ props, r = JObject props.

(** A service and a mirror holding the same flag map [f]. *)
Definition serving (f : value) : FeatureFlagService.service :=
  {| FeatureFlagService.environment := "production";
     FeatureFlagService.config := JObject [("features", f)];
     FeatureFlagService.configPath := None |}.

Definition mirroring (f : value) : FeatureFlagManager.manager :=
  {| FeatureFlagManager.features := f;
     FeatureFlagManager.environment := "production";
     FeatureFlagManager.loaded := true |}.

(** What the sweep does to one element. *)
Definition swept (m : FeatureFlagManager.manager) (el el' : FeatureFlagManager.element) : Prop :=
  FeatureFlagManager.attributes el' = FeatureFlagManager.attributes el
  ∧ (∀ x, x ∈ FeatureFlagManager.classList el → x ∈ FeatureFlagManager.classList el')
  ∧ match FeatureFlagManager.getAttribute (FeatureFlagManager.attributes el) "data-feature" with
    | None => el' = el
    | Some featureName =>
        ∃ enabled, FeatureFlagManager.isEnabled m featureName = Return enabled
                   ∧ FeatureFlagManager.display el' = (if enabled : bool then "" else "none")
                   ∧ mem (if enabled then "feature-enabled" else "feature-disabled")
                         (FeatureFlagManager.classList el') = true
    end.

End Spec.

(** ** Concrete hosts *)

Module Examples.
Import Js Host.

(** The manifest of the reload scenario and its source text. *)
Definition export_on_yml : string := "features: {export: {enabled: true}}".
Definition export_on : value :=
  JObject [("features", JObject [("export", JObject [("enabled", JBool true)])])].

(** A source with one sound record and one whose [enabled] is a string. *)
Definition mixed_yml : string :=
  "features: {export_csv: {enabled: true}, advanced_search: {enabled: 'yes'}}".
Definition mixed : value :=
  JObject [("features", JObject
    [ ("export_csv", JObject [("enabled", JBool true)]);
      ("advanced_search", JObject [("enabled", JString "yes")]) ])].

(** The stage and production manifests of the demo, in flow style. *)
Definition stage_yml : string :=
  "{environment: stage, features: {advanced_search: {enabled: true}, export_csv: {enabled: true}}}".
Definition stage_manifest : value :=
  JObject [ ("environment", JString "stage");
            ("features", JObject
              [ ("advanced_search", JObject [("enabled", JBool true)]);
                ("export_csv", JObject [("enabled", JBool true)]) ]) ].

Definition prod_yml : string :=
  "{environment: production, features: {advanced_search: {enabled: false}, export_csv: {enabled: true}}}".
Definition prod_records : list (string * value) :=
  [ ("advanced_search", JObject [("enabled", JBool false)]);
    ("export_csv", JObject [("enabled", JBool true)]) ].
Definition prod_manifest : value :=
  JObject [ ("environment", JString "production");
            ("features", JObject prod_records) ].

(** What [js-yaml] makes of these sources; an empty file loads as
    [undefined], anything else here is rejected. *)
Definition yaml (src : string) : completion value :=
  if String.eqb src export_on_yml then Return export_on
  else if String.eqb src mixed_yml then Return mixed
  else if String.eqb src stage_yml then Return stage_manifest
  else if String.eqb src prod_yml then Return prod_manifest
  else if String.eqb src "" then Return JUndefined
  else Throw (HostError "YAMLException: bad indentation of a mapping entry").

Definition ok (text : string) : response := {| status := 200; body := JString text |}.

Definition search_router : router :=
  λ verb sub, if String.eqb verb "POST" && String.eqb sub "/"
              then Some (ok "search results") else None.

Definition export_router : router :=
  λ verb sub, if String.eqb verb "GET" && String.eqb sub "/csv"
              then Some (ok "id,title,status") else None.

(** An [Error] object as a module throws it. *)
Definition error_object (name message : string) : value :=
  JObject [("name", JString name); ("message", JString message)].

(** The module loader over the two route modules. *)
Definition modules (p : string) : module_load :=
  if String.eqb p "api/routes/advanced_search.js" then Exports (Function search_router)
  else if String.eqb p "api/routes/export_csv.js" then Exports (Function export_router)
  else Raises (error_object "Error" ("Cannot find module " +:+ p)).

Definition host_of (fs : list (string * file)) : host :=
  {| dirname := "api"; files := list_to_map fs;
     yaml_load := yaml; require := modules |}.

Definition prod_config : string := "api/../config/features.prod.yml".
Definition stage_config : string := "api/../config/features.stage.yml".

(** Production with a working source, with no source, with a source the
    parser rejects, with an empty source. *)
Definition working : host := host_of [(prod_config, Readable export_on_yml)].
Definition missing : host := host_of [].
Definition garbled : host := host_of [(prod_config, Readable "features: [")].
Definition blank : host := host_of [(prod_config, Readable "")].
Definition malformed : host := host_of [(prod_config, Readable mixed_yml)].

Definition search_js : string := "api/routes/advanced_search.js".
Definition export_js : string := "api/routes/export_csv.js".

(** Production as shipped: search off, export on, both route modules there. *)
Definition shipped : host :=
  host_of [ (prod_config, Readable prod_yml);
            (search_js, Readable "module.exports = router;");
            (export_js, Readable "module.exports = router;") ].

(** Stage with both flags on while [routes/advanced_search.js] has not been
    written yet. *)
Definition unshipped : host :=
  host_of [ (stage_config, Readable stage_yml);
            (export_js, Readable "module.exports = router;") ].

(** Stage with both flags on and a search module that throws while it
    loads. *)
Definition crashing : host :=
  {| dirname := "api";
     files := list_to_map [ (stage_config, Readable stage_yml);
                            (search_js, Readable "module.exports = router(");
                            (export_js, Readable "module.exports = router;") ];
     yaml_load := yaml;
     require := λ p, if String.eqb p export_js then Exports (Function export_router)
                     else Raises (error_object "SyntaxError" "Unexpected end of input") |}.

(** Stage with both flags on and a search module whose top level throws
    [null]. *)
Definition poisoned : host :=
  {| dirname := "api";
     files := list_to_map [ (stage_config, Readable stage_yml);
                            (search_js, Readable "throw null;");
                            (export_js, Readable "module.exports = router;") ];
     yaml_load := yaml;
     require := λ p, if String.eqb p export_js then Exports (Function export_router)
                     else Raises JNull |}.

(** Stage with both flags on and a search module that is still a
    placeholder: it assigns nothing to [module.exports], which stays the
    empty object. *)
Definition placeholder : host :=
  {| dirname := "api";
     files := list_to_map [ (stage_config, Readable stage_yml);
                            (search_js, Readable "// TODO: search routes");
                            (export_js, Readable "module.exports = router;") ];
     yaml_load := yaml;
     require := λ p, if String.eqb p export_js then Exports (Function export_router)
                     else Exports (NotFunction empty_object) |}.

Definition demo_core : Server.core :=
  {| Server.health := λ _, ok "healthy";
     Server.feature_flags := λ _, ok "flags";
     Server.feature_flags_reload := λ _, ok "Feature flags reloaded";
     Server.tasksRouter := λ verb sub,
       if String.eqb verb "GET" && String.eqb sub "/" then Some (ok "tasks") else None |}.


(** Stage with both flags on and both route modules there. *)
Definition staged : host :=
  host_of [ (stage_config, Readable stage_yml);
            (search_js, Readable "module.exports = router;");
            (export_js, Readable "module.exports = router;") ].

(** A flag map whose author quoted the value: [enabled: 'true'] is the
    string, not the boolean. *)
Definition quoted_flag : value :=
  JObject [("dark_mode", JObject [("enabled", JString "true")])].

(** The production manifest again, now with the informational fields. *)
Definition annotated_records : list (string * value) :=
  [ ("advanced_search",
     JObject [ ("enabled", JBool false);
               ("description", JString "Advanced task search with filters");
               ("owner", JString "dev1");
               ("status", JString "in_development") ]);
    ("export_csv",
     JObject [ ("enabled", JBool true);
               ("description", JString "Export tasks to CSV");
               ("owner", JString "dev2");
               ("status", JString "live") ]) ].
Definition annotated : value :=
  JObject [ ("environment", JString "production");
            ("features", JObject annotated_records) ].

(** A manifest whose author left one record empty ([advanced_search:] with
    nothing after the colon loads as [null]). *)
Definition half_written_records : list (string * value) :=
  [ ("export_csv", JObject [("enabled", JBool true)]);
    ("advanced_search", JNull) ].
Definition half_written : value :=
  JObject [("features", JObject half_written_records)].

(** Production with that manifest as its source, both route modules there. *)
Definition half_written_yml : string :=
  "features: {export_csv: {enabled: true}, advanced_search: null}".

Definition unfinished : host :=
  {| dirname := "api";
     files := list_to_map [ (prod_config, Readable half_written_yml);
                            (search_js, Readable "module.exports = router;");
                            (export_js, Readable "module.exports = router;") ];
     yaml_load := λ src, if String.eqb src half_written_yml then Return half_written
                         else yaml src;
     require := modules |}.

Definition holding (doc : value) : FeatureFlagService.service :=
  {| FeatureFlagService.environment := "production";
     FeatureFlagService.config := doc;
     FeatureFlagService.configPath := Some prod_config |}.

(** A page with two tagged sections and an untagged one. *)
Definition page : list FeatureFlagManager.element :=
  [ {| FeatureFlagManager.attributes := [("id", "search"); ("data-feature", "advanced_search")];
       FeatureFlagManager.display := ""; FeatureFlagManager.classList := [] |};
    {| FeatureFlagManager.attributes := [("data-feature", "export_csv")];
       FeatureFlagManager.display := "block"; FeatureFlagManager.classList := ["card"] |};
    {| FeatureFlagManager.attributes := [("id", "tasks")];
       FeatureFlagManager.display := ""; FeatureFlagManager.classList := [] |} ].

End Examples.

(** ** js/featureFlagManager.js and js/ui.js: the page of the task manager *)

Module AppFeatureFlagManager.
Import Js.

(** The manager the application controller constructs; it keeps the whole
    fetched document in [flags]. *)
Record manager : Type := {
  flags : value;
  loaded : bool;
}.

Definition new : manager := {| flags := empty_manifest; loaded := false |}.

(** The default the [catch] of [load] falls back to. *)
Definition fallback : value :=
  JObject [ ("environment", JString "production");
            ("features", JObject
              [ ("advanced_search", JObject [("enabled", JBool false)]);
                ("export_csv", JObject [("enabled", JBool false)]) ]) ].

(** [load()]: the response's status is not looked at; the error is thrown
    again after the fallback is stored. *)
Definition load (m : manager) (response : FeatureFlagManager.fetched)
  : manager * completion value :=
  match response with
  | FeatureFlagManager.Rejected e =>
      ({| flags := fallback; loaded := loaded m |}, Throw e)
  | FeatureFlagManager.Response _ (Throw e) =>
      ({| flags := fallback; loaded := loaded m |}, Throw e)
  | FeatureFlagManager.Response _ (Return doc) =>
      ({| flags := doc; loaded := true |}, Return doc)
  end.

(** [v?.[k]] and [v?.k]. *)
Definition get_optional (v : value) (k : string) : completion value :=
  match v with
  | JUndefined | JNull => Return JUndefined
  | _ => get v k
  end.

(** [this.flags.features?.[featureName]?.enabled || false]: the result is
    whatever [enabled] holds when that is truthy. *)
Definition isEnabled (m : manager) (featureName : string) : completion value :=
  features ← get (flags m) "features";
  feature ← get_optional features featureName;
  enabled ← get_optional feature "enabled";
  Return (or_else enabled (JBool false)).

Definition getFeature (m : manager) (featureName : string) : completion value :=
  features ← get (flags m) "features";
  feature ← get_optional features featureName;
  Return (or_else feature JNull).

Definition getEnabledFeatures (m : manager) : completion (list string) :=
  features ← get (flags m) "features";
  if negb (truthy features) then Return [] else
  keys ← Object_keys features;
  filterM (λ key, feature ← get features key;
                  enabled ← get feature "enabled";
                  Return (is_true enabled)) keys.

Definition getEnvironment (m : manager) : completion value :=
  environment ← get (flags m) "environment";
  Return (or_else environment (JString "production")).

Definition getAllFeatures (m : manager) : completion value :=
  features ← get (flags m) "features";
  Return (or_else features empty_object).

End AppFeatureFlagManager.

Module UIManager.
Import Js.

(** An element of the page as the manager touches it: its class list (the
    [className] attribute holds the same tokens) and its text. *)
Record element : Type := {
  classList : list string;
  textContent : string;
}.

(** [this.elements], the cache of [initializeElements()], is a map from each
    name to the element [getElementById] found for it.  A name without an
    entry reads as [null] (no such element in the document) or [undefined]
    (no such name). *)

(** [classList.remove(c)]. *)
Definition classList_remove (cl : list string) (c : string) : list string :=
  List.filter (λ x, negb (String.eqb x c)) cl.

Definition set_classList (el : element) (cl : list string) : element :=
  {| classList := cl; textContent := textContent el |}.

(** [feature && feature.enabled]. *)
Definition and_enabled (feature : value) : completion value :=
  if truthy feature then get feature "enabled" else Return feature.

(** The two lookups come first; the statements of the branch taken then
    change the section and the label in turn, and the first of the two that
    is not there makes its statement throw, with what was changed before it
    left changed. *)
Definition updateFeatureSection (els : gmap string element)
    (featureName sectionPrefix : string) (feature : value)
  : gmap string element * completion unit :=
  let section := els !! (sectionPrefix +:+ "Section") in
  let label := els !! (sectionPrefix +:+ "Label") in
  match and_enabled feature with
  | Throw e => (els, Throw e)
  | Return on =>
      let '(added, removed, text, name) :=
        if truthy on
        then ("feature-enabled", "feature-disabled", "ENABLED", "enabled")
        else ("feature-disabled", "feature-enabled", "DISABLED", "disabled") in
      match section with
      | None =>
          (els, Throw (TypeError "Cannot read properties of null (reading 'classList')"))
      | Some section =>
          let els1 :=
            <[sectionPrefix +:+ "Section" :=
                set_classList section
                  (classList_remove
                     (FeatureFlagManager.classList_add (classList section) added)
                     removed)]> els in
          match label with
          | None =>
              (els1, Throw (TypeError "Cannot set properties of null (setting 'textContent')"))
          | Some label =>
              (<[sectionPrefix +:+ "Label" :=
                   {| classList := ["feature-label"; name]; textContent := text |}]> els1,
               Return ())
          end
      end
  end.

End UIManager.

(** ** api/routes/export_csv.js: the escaping step of the CSV writer *)

Module ExportCsv.
Import Js.

Definition comma : ascii := ","%char.
Definition quote : ascii := "034"%char.
Definition newline : ascii := "010"%char.

(** [s.includes(c)] for a one-character [c]. *)
Fixpoint includes_char (s : string) (c : ascii) : bool :=
  match s with
  | EmptyString => false
  | String d rest => Ascii.eqb d c || includes_char rest c
  end.

(** Every quote character written twice: the [replace] with the global
    pattern of one quote. *)
Fixpoint double_quotes (s : string) : string :=
  match s with
  | EmptyString => EmptyString
  | String c rest =>
      if Ascii.eqb c quote
      then String quote (String quote (double_quotes rest))
      else String c (double_quotes rest)
  end.

(** The escaping step: a text with a comma, a quote or a line break is
    wrapped in quotes with its quotes doubled. *)
Definition quote_field (text : string) : string :=
  if includes_char text comma || includes_char text quote || includes_char text newline
  then String quote (double_quotes text +:+ String quote EmptyString)
  else text.

End ExportCsv.

(** ** More concrete inputs *)

Module MoreExamples.
Import Js Spec Examples.

(** The page of [Examples] swept by a mirror that holds the production
    flags. *)
Definition page_in_production : list FeatureFlagManager.element :=
  Eval vm_compute in
    match FeatureFlagManager.applyFeatureFlags (mirroring (JObject prod_records)) page with
    | Return swept_page => swept_page
    | Throw _ => []
    end.

(** The search section and its label as the page ships them. *)
Definition search_elements : gmap string UIManager.element :=
  {[ "searchSection" :=
       {| UIManager.classList := ["feature-section"; "feature-disabled"];
          UIManager.textContent := "" |};
     "searchLabel" :=
       {| UIManager.classList := ["feature-label"; "disabled"];
          UIManager.textContent := "DISABLED" |} ]}.

End MoreExamples.

(** * Properties *)

(** ** Facts about the JavaScript fragment *)

Section JsFacts.
Import Js.

Lemma bind_Return {A B} (f : A → completion B) (a : A) : Return a ≫= f = f a.
Proof. reflexivity. Qed.

Lemma bind_Throw {A B} (f : A → completion B) (e : exn) : Throw e ≫= f = Throw e.
Proof. reflexivity. Qed.

Lemma truthy_get (v : value) (k : string) :
  truthy v = true → get v k = Return (default (inherited v k) (own v k)).
Proof. destruct v; simpl; intros; done. Qed.

Lemma get_Return (v : value) (k : string) (x : value) :
  get v k = Return x →
  own v k = Some x ∨ (own v k = None ∧ x = inherited v k).
Proof.
  unfold get. remember (own v k) as o eqn:Ho.
  destruct v; try done; intros [= <-]; destruct o; simpl; eauto.
Qed.

Lemma inherited_not_truth (v : value) (k : string) : is_true (inherited v k) = false.
Proof. unfold inherited. destruct (mem _ _); reflexivity. Qed.

Lemma inherited_not_object (v : value) (k : string) props : inherited v k ≠ JObject props.
Proof. unfold inherited. destruct (mem _ _); discriminate. Qed.

Lemma append_snoc (pre : string) (c : ascii) (s : string) :
  pre +:+ String c s = (pre +:+ String c "") +:+ s.
Proof.
  induction pre as [|d pre IH]; [reflexivity|].
  change (String d (pre +:+ String c s) = String d ((pre +:+ String c "") +:+ s)).
  by rewrite IH.
Qed.

(** The decimal spelling of an index ends in a digit. *)
Lemma pretty_N_go_suffix (x : N) (s : string) :
  ∃ pre, pretty_N_go x s = pre +:+ s.
Proof.
  revert s. induction (N.lt_wf_0 x) as [x _ IH]; intros s.
  destruct (decide (x = 0)%N) as [->|Hx].
  - exists "". by rewrite pretty_N_go_0.
  - rewrite pretty_N_go_step by lia.
    destruct (IH (x `div` 10)%N) with (s := String (pretty_N_char (x `mod` 10)) s)
      as [pre Hpre]; [apply N.div_lt; lia|].
    exists (pre +:+ String (pretty_N_char (x `mod` 10)) "").
    rewrite Hpre. apply append_snoc.
Qed.

Lemma index_key_last (i : nat) :
  ∃ pre d, index_key i = pre +:+ String (pretty_N_char d) "".
Proof.
  unfold index_key, pretty, pretty_nat, pretty, pretty_N.
  case_decide as Hi.
  - exists "", 0%N. done.
  - rewrite pretty_N_go_step by lia.
    destruct (pretty_N_go_suffix (N.of_nat i `div` 10)
                (String (pretty_N_char (N.of_nat i `mod` 10)) "")) as [pre Hpre].
    eauto.
Qed.

Lemma length_append (a b : string) :
  String.length (a +:+ b) = String.length a + String.length b.
Proof.
  induction a as [|c a IH]; [reflexivity|].
  change (S (String.length (a +:+ b)) = S (String.length a + String.length b)).
  by rewrite IH.
Qed.

Lemma index_key_not_enabled (i : nat) : index_key i ≠ "enabled".
Proof.
  destruct (index_key_last i) as (pre & d & ->). intros H.
  assert (String.length pre = 6) as Hlen.
  { apply (f_equal String.length) in H. rewrite length_append in H.
    simpl in H. lia. }
  pose proof (String.append_correct2 pre (String (pretty_N_char d) "") 0) as Hget.
  rewrite H, Hlen in Hget. simpl in Hget.
  revert Hget. unfold pretty_N_char. repeat case_match; discriminate.
Qed.

Lemma index_of_key_Some (k : string) (len i : nat) :
  index_of_key k len = Some i → k = index_key i ∧ i < len.
Proof.
  unfold index_of_key. intros H. apply find_some in H as [Hin Heq].
  apply String.eqb_eq in Heq. apply in_seq in Hin. split; [done|lia].
Qed.

Lemma index_of_key_enabled (len : nat) : index_of_key "enabled" len = None.
Proof.
  destruct (index_of_key "enabled" len) as [i|] eqn:H; [|done].
  apply index_of_key_Some in H as [H _]. by destruct (index_key_not_enabled i).
Qed.

Lemma assoc_Some_key (k : string) props (v : value) :
  assoc k props = Some v → k ∈ props.*1.
Proof.
  induction props as [|[k' v'] props IH]; simpl; [done|].
  destruct (String.eqb_spec k' k) as [->|]; [set_solver|].
  intros. apply list_elem_of_further. auto.
Qed.

Lemma assoc_key_Some (k : string) (props : list (string * value)) :
  k ∈ props.*1 → is_Some (assoc k props).
Proof.
  induction props as [|[k' v'] props IH]; simpl; [by intros ?%elem_of_nil|].
  destruct (String.eqb_spec k' k) as [->|]; [eauto|].
  intros [?|?]%elem_of_cons; [congruence|auto].
Qed.

(** Only an object has an own [enabled]. *)
Lemma own_enabled_object (v x : value) :
  own v "enabled" = Some x → ∃ props, v = JObject props ∧ assoc "enabled" props = Some x.
Proof.
  destruct v; simpl; try done.
  - by rewrite index_of_key_enabled.
  - by rewrite index_of_key_enabled.
  - eauto.
Qed.

(** [feature.enabled === true] holds exactly of an object whose own
    [enabled] is [true]. *)
Lemma get_enabled_true (v : value) :
  get v "enabled" = Return (JBool true) ↔ own v "enabled" = Some (JBool true).
Proof.
  split.
  - intros [Hown|[_ H]]%get_Return; [done|].
    apply (f_equal is_true) in H. by rewrite inherited_not_truth in H.
  - intros H. destruct (own_enabled_object _ _ H) as (props & -> & Ha).
    simpl. by rewrite Ha.
Qed.

End JsFacts.

(** ** The enablement query *)

Section IsEnabled.
Import Js Spec.

Lemma own_object_key (f : value) (n : string) props :
  own f n = Some (JObject props) → n ∈ own_keys f.
Proof.
  destruct f; simpl; try done.
  - unfold char_at.
    destruct (index_of_key n (String.length s)) as [i|]; [by destruct (String.get i s)|].
    by destruct (String.eqb n "length").
  - destruct (index_of_key n (length items)) as [i|] eqn:Hi.
    + apply index_of_key_Some in Hi as [-> Hlt]. intros _.
      apply list_elem_of_fmap. exists i. split; [done|].
      apply list_elem_of_In, in_seq. lia.
    + by destruct (String.eqb n "length").
  - apply assoc_Some_key.
Qed.

Lemma flag_on_truthy (f : value) (n : string) : flag_on f n → truthy f = true.
Proof.
  intros [Hkey _]. destruct f; simpl in *; try by apply elem_of_nil in Hkey.
  all: try done.
  destruct s; [by apply elem_of_nil in Hkey|done].
Qed.

(** The tail shared by both [isEnabled]: look the record up, test it, compare
    its [enabled] with [true]. *)
Lemma enabled_lookup (f : value) (n : string) :
  truthy f = true →
  ∃ b, (feature ← get f n;
        if negb (truthy feature) then Return false else
        enabled ← get feature "enabled";
        Return (is_true enabled)) = Return b
       ∧ (b = true ↔ flag_on f n).
Proof.
  intros Hf. rewrite (truthy_get f n Hf), bind_Return.
  destruct (truthy (default (inherited f n) (own f n))) eqn:Hfeature; simpl.
  - rewrite (truthy_get _ "enabled" Hfeature), bind_Return.
    eexists; split; [done|]. split.
    + intros Ht.
      assert (get (default (inherited f n) (own f n)) "enabled" = Return (JBool true)) as Hg.
      { rewrite (truthy_get _ "enabled" Hfeature). f_equal.
        destruct (default _ (own (default _ _) "enabled")) as [| |[]| | | | |]; done. }
      apply get_enabled_true in Hg.
      destruct (own_enabled_object _ _ Hg) as (props & Hrec & _).
      destruct (own f n) as [record|] eqn:Hown; simpl in *;
        [|by destruct (inherited_not_object f n props)].
      subst record. split; [by eapply own_object_key|]. eauto.
    + intros (_ & record & Hown & Hen). rewrite Hown. simpl. by rewrite Hen.
  - eexists; split; [done|]. split; [done|].
    intros (_ & record & Hown & Hen). rewrite Hown in Hfeature. simpl in Hfeature.
    destruct (own_enabled_object _ _ Hen) as (props & -> & _). done.
Qed.

Lemma inherited_features (v : value) : inherited v "features" = JUndefined.
Proof. destruct v; reflexivity. Qed.

Lemma get_features (c : value) :
  truthy c = true →
  get c "features" = Return (default JUndefined (own c "features")).
Proof. intros H. by rewrite (truthy_get _ _ H), inherited_features. Qed.

Lemma falsy_no_features (c : value) :
  truthy c = false → own c "features" = None.
Proof.
  destruct c; simpl; try done.
  destruct (String.eqb_spec s "") as [->|]; [done|discriminate].
Qed.

Lemma service_isEnabled_spec (s : FeatureFlagService.service) (n : string) :
  ∃ b, FeatureFlagService.isEnabled s n = Return b
       ∧ (b = true ↔ ∃ features, own (FeatureFlagService.config s) "features" = Some features
                                 ∧ flag_on features n).
Proof.
  unfold FeatureFlagService.isEnabled.
  destruct (truthy (FeatureFlagService.config s)) eqn:Hc; simpl.
  - rewrite (get_features _ Hc), bind_Return.
    destruct (own (FeatureFlagService.config s) "features") as [f|] eqn:Hown; simpl.
    + destruct (truthy f) eqn:Hf; simpl.
      * destruct (enabled_lookup f n Hf) as (b & -> & Hb).
        exists b. split; [done|]. rewrite Hb. split; [eauto|].
        by intros (f' & [= <-] & ?).
      * exists false. split; [done|]. split; [done|].
        intros (f' & [= <-] & Hon%flag_on_truthy). congruence.
    + exists false. split; [done|]. split; [done|]. by intros (? & ? & _).
  - exists false. split; [done|]. split; [done|].
    rewrite (falsy_no_features _ Hc). by intros (? & ? & _).
Qed.

Lemma init_features_truthy (m0 : FeatureFlagManager.manager) arg pathname response :
  truthy (FeatureFlagManager.features
            (FeatureFlagManager.init m0 arg pathname response)) = true.
Proof.
  unfold FeatureFlagManager.init, FeatureFlagManager.try_init.
  destruct response as [e|[] [config|e]]; simpl; try done.
  destruct (get config "features") as [f|e]; simpl; [|done].
  assert (truthy (or_else f empty_object) = true) as Hf.
  { unfold or_else. by destruct (truthy f) eqn:?. }
  destruct (Object_keys _ ≫= _); simpl; done.
Qed.

(** C2. [isEnabled(n)] never throws, and answers [true] exactly when [n] is
    a key of the loaded flag map whose record has [enabled === true]; this
    holds of the service over any loaded document and of the client mirror
    over any fetched one. *)
Theorem isEnabled_true_iff (n : string)
    (s : FeatureFlagService.service)
    (m0 : FeatureFlagManager.manager) (arg : option string) (pathname : string)
    (response : FeatureFlagManager.fetched) :
  (∃ b, FeatureFlagService.isEnabled s n = Return b
        ∧ (b = true ↔ ∃ features,
             own (FeatureFlagService.config s) "features" = Some features
             ∧ flag_on features n))
  ∧ (∃ b, FeatureFlagManager.isEnabled
            (FeatureFlagManager.init m0 arg pathname response) n = Return b
          ∧ (b = true ↔
             flag_on (FeatureFlagManager.features
                        (FeatureFlagManager.init m0 arg pathname response)) n)).
Proof.
  split; [apply service_isEnabled_spec|].
  apply enabled_lookup, init_features_truthy.
Qed.

End IsEnabled.

(** ** The loader and reload *)

Section Loader.
Import Js Host Spec FeatureFlagService.

Lemma loadConfiguration_broken (h : host) (s : service) :
  source_broken h (environment s) →
  config (loadConfiguration h s) = empty_manifest.
Proof.
  unfold loadConfiguration, try_load. intros [e Hr|contents e Hr Hy].
  - by rewrite Hr.
  - by rewrite Hr, Hy.
Qed.

Lemma Object_keys_or_else (x : value) :
  ∃ keys, Object_keys (or_else x empty_object) = Return keys.
Proof.
  unfold or_else. destruct (truthy x) eqn:Hx; [|simpl; eauto].
  destruct x; try discriminate; simpl; eauto.
Qed.

Lemma log_line_returns (doc : value) :
  nullish doc = false →
  (features ← get doc "features";
   _ ← Object_keys (or_else features empty_object);
   Return ()) = Return ().
Proof.
  intros Hn.
  assert (∃ x, get doc "features" = Return x) as [x ->]
    by (destruct doc; try discriminate; simpl; eauto).
  rewrite bind_Return. by destruct (Object_keys_or_else x) as [keys ->].
Qed.

Lemma loadConfiguration_parsed (h : host) (s : service) (doc : value) :
  parses_to h (environment s) doc →
  config (loadConfiguration h s) = if nullish doc then empty_manifest else doc.
Proof.
  unfold loadConfiguration, try_load. intros (contents & -> & ->).
  destruct (nullish doc) eqn:Hn.
  - by destruct doc.
  - cbn [config set_config]. by rewrite (log_line_returns _ Hn).
Qed.

Lemma loadConfiguration_raises (h : host) (s : service) :
  load_raises h (environment s) →
  config (loadConfiguration h s) = empty_manifest.
Proof.
  intros [Hb|doc Hp Hn]; [by apply loadConfiguration_broken|].
  by rewrite (loadConfiguration_parsed _ _ _ Hp), Hn.
Qed.

Lemma loadConfiguration_environment (h : host) (s : service) :
  environment (loadConfiguration h s) = environment s.
Proof.
  unfold loadConfiguration, try_load.
  destruct (readFileSync _ _); [|done].
  destruct (yaml_load _ _); [|done].
  simpl. by destruct (_ ≫= _).
Qed.

Lemma isEnabled_empty_manifest (s : service) (n : string) :
  config s = empty_manifest → isEnabled s n = Return false.
Proof.
  intros Hc. destruct (service_isEnabled_spec s n) as (b & -> & Hb).
  destruct b; [|done]. destruct Hb as [Hb _].
  destruct (Hb eq_refl) as (f & Hown & Hkey & _).
  rewrite Hc in Hown. injection Hown as <-. by apply elem_of_nil in Hkey.
Qed.

Lemma getEnabledFeatures_empty_manifest (s : service) :
  config s = empty_manifest → getEnabledFeatures s = Return [].
Proof. unfold getEnabledFeatures. by intros ->. Qed.

(** C3, amended.  When the initial load raises inside the loader (source
    missing or unreadable, parse error, or a document that is null or
    undefined) no exception reaches the caller: the state is the empty
    manifest, [getEnabledFeatures()] is empty and [isEnabled(n)] is [false]
    for every name.  A source that parses to any other document is no
    failure, whether or not the document follows the manifest interface: the
    document becomes the state as it is. *)
Theorem initial_load_fail_safe (h : host) (env : string) :
  (load_raises h env →
   config (new h env) = empty_manifest
   ∧ getEnabledFeatures (new h env) = Return []
   ∧ ∀ n, isEnabled (new h env) n = Return false)
  ∧ (∀ doc, parses_to h env doc → nullish doc = false →
            config (new h env) = doc).
Proof.
  split.
  - intros Hr.
    assert (config (new h env) = empty_manifest) as Hc
      by (by apply loadConfiguration_raises).
    split; [done|]. split; [by apply getEnabledFeatures_empty_manifest|].
    intros n. by apply isEnabled_empty_manifest.
  - intros doc Hp Hn. unfold new.
    by rewrite (loadConfiguration_parsed h
                 {| environment := env; config := JNull; configPath := None |}
                 doc Hp), Hn.
Qed.

(** C1, amended.  A reload against a missing or unparsable source replaces
    the state by the empty manifest, whatever it was before: afterwards
    [isEnabled(n)] is [false] for every name.  A reload whose source parses
    to a document other than null or undefined replaces the state by that
    document. *)
Theorem reload_replaces_state (h : host) (s : service) :
  (source_broken h (environment s) →
   config (reload h s) = empty_manifest
   ∧ ∀ n, isEnabled (reload h s) n = Return false)
  ∧ (∀ doc, parses_to h (environment s) doc → nullish doc = false →
            config (reload h s) = doc).
Proof.
  split.
  - intros Hb.
    assert (config (reload h s) = empty_manifest) as Hc
      by (by apply loadConfiguration_broken).
    split; [done|]. intros n. by apply isEnabled_empty_manifest.
  - intros doc Hp Hn. unfold reload.
    by rewrite (loadConfiguration_parsed _ _ _ Hp), Hn.
Qed.

End Loader.

Section LoaderExamples.
Import Js Host Spec FeatureFlagService Examples.

(** A source the parser rejects and an empty source both leave the empty
    manifest behind. *)
Example garbled_source_fails_safe :
  source_broken garbled "production"
  ∧ config (new garbled "production") = empty_manifest.
Proof. split; [by eapply source_unparsable|reflexivity]. Qed.

Example blank_source_fails_safe :
  load_raises blank "production"
  ∧ config (new blank "production") = empty_manifest.
Proof.
  split; [|reflexivity].
  apply (raises_nullish _ _ JUndefined); [|done]. by exists "".
Qed.

(** C3, witness: production without a configuration file, and production
    with a source that holds a malformed record. *)
Lemma initial_load_fail_safe_witness :
  load_raises missing "production"
  ∧ (config (new missing "production") = empty_manifest
     ∧ getEnabledFeatures (new missing "production") = Return []
     ∧ ∀ n, isEnabled (new missing "production") n = Return false)
  ∧ parses_to malformed "production" mixed
  ∧ nullish mixed = false
  ∧ well_formed mixed = false
  ∧ config (new malformed "production") = mixed.
Proof.
  pose proof (initial_load_fail_safe missing "production") as [Hfail _].
  pose proof (initial_load_fail_safe malformed "production") as [_ Hkeep].
  assert (load_raises missing "production") as Hr
    by (apply raises_broken; by eapply source_unavailable).
  assert (parses_to malformed "production" mixed) as Hp by (by exists mixed_yml).
  split; [done|]. split; [exact (Hfail Hr)|]. split; [done|].
  split; [done|]. split; [done|]. exact (Hkeep mixed Hp eq_refl).
Defined.

(** C3, as stated, fails: a source with a malformed record is a load failure
    of the specification, yet the loader keeps the parsed document and the
    sound record stays enabled. *)
Lemma malformed_record_is_loaded :
  load_failure malformed "production"
  ∧ config (new malformed "production") = mixed
  ∧ mixed ≠ empty_manifest
  ∧ isEnabled (new malformed "production") "export_csv" = Return true
  ∧ getEnabledFeatures (new malformed "production") = Return ["export_csv"].
Proof.
  split; [|repeat split; done].
  apply (failure_malformed _ _ mixed); [|done]. by exists mixed_yml.
Qed.

(** C1, witness: a reload of production without a configuration file, and
    a reload against the working source. *)
Lemma reload_replaces_state_witness :
  source_broken missing "production"
  ∧ (config (reload missing (new working "production")) = empty_manifest
     ∧ ∀ n, isEnabled (reload missing (new working "production")) n = Return false)
  ∧ parses_to working "production" export_on
  ∧ nullish export_on = false
  ∧ config (reload working (new missing "production")) = export_on.
Proof.
  pose proof (reload_replaces_state missing (new working "production")) as [Hfail _].
  pose proof (reload_replaces_state working (new missing "production")) as [_ Hok].
  assert (source_broken missing "production") as Hb by (by eapply source_unavailable).
  assert (parses_to working "production" export_on) as Hp by (by exists export_on_yml).
  split; [done|]. split; [exact (Hfail Hb)|]. split; [done|]. split; [done|].
  exact (Hok export_on Hp eq_refl).
Defined.

(** C1, as stated, fails: with [{export: enabled=true}] loaded, a reload
    against a missing source turns [isEnabled('export')] from [true] to
    [false]. *)
Lemma reload_discards_working_state :
  parses_to working "production" export_on
  ∧ source_broken missing "production"
  ∧ isEnabled (new working "production") "export" = Return true
  ∧ isEnabled (reload missing (new working "production")) "export" = Return false
  ∧ config (reload missing (new working "production"))
    ≠ config (new working "production").
Proof.
  split; [by exists export_on_yml|]. split; [by eapply source_unavailable|].
  repeat split; done.
Qed.

End LoaderExamples.

(** ** The mount pass *)

Section Mounting.
Import Js Host Spec FeatureFlagService Server.

Lemma isEnabled_returns (s : service) (name : string) :
  ∃ b, isEnabled s name = Return b.
Proof. destruct (service_isEnabled_spec s name) as (b & -> & _). eauto. Qed.

Lemma get_message (thrown : value) :
  if nullish thrown then ∃ e, get thrown "message" = Throw e
  else ∃ v, get thrown "message" = Return v.
Proof. destruct thrown; simpl; eauto. Qed.

Lemma getFeatureRouter_disabled (h : host) (s : service) (name : string) :
  isEnabled s name = Return false → getFeatureRouter h s name = Return None.
Proof. unfold getFeatureRouter. by intros ->. Qed.

Lemma getFeatureRouter_absent (h : host) (s : service) (name : string) :
  existsSync h (route_path h name) = false → getFeatureRouter h s name = Return None.
Proof.
  intros He. unfold getFeatureRouter.
  destruct (isEnabled_returns s name) as [b ->]. rewrite bind_Return, He.
  by destruct b.
Qed.

Lemma getFeatureRouter_enabled (h : host) (s : service) (name : string) :
  isEnabled s name = Return true →
  existsSync h (route_path h name) = true →
  getFeatureRouter h s name
  = match require h (route_path h name) with
    | Exports x => Return (Some x)
    | Raises error => _ ← get error "message"; Return None
    end.
Proof. unfold getFeatureRouter. by intros -> ->. Qed.

Lemma mount_survives (h : host) (s : service) (app : list layer) (name prefix : string) :
  mount_dies h s name = false →
  mount h s app name prefix
  = Return (app ++ option_list (Use prefix <$> decision h s name)).
Proof.
  unfold mount, mount_dies, decision.
  destruct (isEnabled_returns s name) as [[] Hb]; rewrite Hb.
  - destruct (existsSync h (route_path h name)) eqn:He; simpl.
    + rewrite (getFeatureRouter_enabled _ _ _ Hb He).
      destruct (require h (route_path h name)) as [[r|v]|thrown]; simpl.
      * done.
      * intros ->. by rewrite app_nil_r.
      * intros Hn. pose proof (get_message thrown) as Hm. rewrite Hn in Hm.
        destruct Hm as [v ->]. simpl. by rewrite app_nil_r.
    + intros _. rewrite (getFeatureRouter_absent _ _ _ He). simpl.
      by rewrite app_nil_r.
  - intros _. rewrite (getFeatureRouter_disabled _ _ _ Hb). simpl.
    by rewrite app_nil_r.
Qed.

Lemma mount_throws (h : host) (s : service) (app : list layer) (name prefix : string) :
  mount_dies h s name = true → ∃ e, mount h s app name prefix = Throw e.
Proof.
  unfold mount, mount_dies.
  destruct (isEnabled s name) as [[]|] eqn:Hb; try done.
  destruct (existsSync h (route_path h name)) eqn:He; [|done]. simpl.
  rewrite (getFeatureRouter_enabled _ _ _ Hb He).
  destruct (require h (route_path h name)) as [[r|v]|thrown]; simpl.
  - done.
  - intros ->. eauto.
  - intros Hn. pose proof (get_message thrown) as Hm. rewrite Hn in Hm.
    destruct Hm as [e ->]. simpl. eauto.
Qed.

Lemma mounted_layers_cons (h : host) (s : service) (name prefix : string) caps :
  mounted_layers h s ((name, prefix) :: caps)
  = option_list (Use prefix <$> decision h s name) ++ mounted_layers h s caps.
Proof. unfold mounted_layers. simpl. by destruct (decision h s name). Qed.

(** The pass either goes through, adding the layers of the capabilities it
    decides to bind, or throws at a capability whose mount statement dies. *)
Lemma mount_pass_spec (h : host) (s : service) (caps : list (string * string)) :
  ∀ app,
    (Forall (λ cap, mount_dies h s cap.1 = false) caps
     ∧ mount_pass h s app caps = Return (app ++ mounted_layers h s caps))
    ∨ (Exists (λ cap, mount_dies h s cap.1 = true) caps
       ∧ ∃ e, mount_pass h s app caps = Throw e).
Proof.
  induction caps as [|[name prefix] caps IH]; intros app.
  - left. split; [constructor|]. simpl. by rewrite app_nil_r.
  - cbn [mount_pass]. destruct (mount_dies h s name) eqn:Hd.
    + right. split; [by apply Exists_cons_hd|].
      destruct (mount_throws h s app name prefix Hd) as [e ->]. simpl. eauto.
    + rewrite (mount_survives h s app name prefix Hd), bind_Return.
      rewrite mounted_layers_cons, app_assoc.
      destruct (IH (app ++ option_list (Use prefix <$> decision h s name)))
        as [[Hall ->]|[Hex [e ->]]].
      * left. split; [by constructor|done].
      * right. split; [by apply Exists_cons_tl|eauto].
Qed.

Lemma mount_pass_Return_iff (h : host) (s : service) (app : list layer)
    (caps : list (string * string)) :
  (∃ app', mount_pass h s app caps = Return app')
  ↔ ∀ name prefix, (name, prefix) ∈ caps → mount_dies h s name = false.
Proof.
  destruct (mount_pass_spec h s caps app) as [[Hall Hp]|[Hex [e Hp]]]; rewrite Hp.
  - split; [|eauto]. intros _ name prefix Hin.
    by apply (proj1 (Forall_forall _ _) Hall (name, prefix)).
  - split; [by intros [? ?]|]. intros Hall.
    apply Exists_exists in Hex as ([name prefix] & Hin & Hd).
    simpl in Hd. rewrite (Hall name prefix Hin) in Hd. done.
Qed.

Lemma mount_pass_Return_inv (h : host) (s : service) (app app' : list layer)
    (caps : list (string * string)) :
  mount_pass h s app caps = Return app' → app' = app ++ mounted_layers h s caps.
Proof.
  destruct (mount_pass_spec h s caps app) as [[_ ->]|[_ [e ->]]]; [|done].
  by intros [= <-].
Qed.

Lemma bound_prefixes_app (app1 app2 : list layer) :
  bound_prefixes (app1 ++ app2) = bound_prefixes app1 ∪ bound_prefixes app2.
Proof. unfold bound_prefixes. by rewrite omap_app, list_to_set_app_L. Qed.

Lemma elem_of_bound_prefixes (app : list layer) (p : string) :
  p ∈ bound_prefixes app ↔ ∃ r, Use p r ∈ app.
Proof.
  unfold bound_prefixes. rewrite elem_of_list_to_set, list_elem_of_omap. split.
  - intros ([] & Hin & Hp); simplify_eq/=. eauto.
  - intros [r Hin]. by exists (Use p r).
Qed.

Lemma elem_of_mounted_layers (h : host) (s : service) caps (p : string) (r : router) :
  Use p r ∈ mounted_layers h s caps ↔ ∃ name, (name, p) ∈ caps ∧ decision h s name = Some r.
Proof.
  unfold mounted_layers. rewrite list_elem_of_omap. split.
  - intros ([name p'] & Hin & Hd). simpl in Hd.
    destruct (decision h s name) as [r'|] eqn:Hdec; simplify_eq/=. eauto.
  - intros (name & Hin & Hdec). exists (name, p). split; [done|].
    simpl. by rewrite Hdec.
Qed.

Lemma decision_Some (h : host) (s : service) (name : string) (r : router) :
  decision h s name = Some r ↔
  isEnabled s name = Return true ∧ provides h name r.
Proof.
  unfold decision, provides. split.
  - destruct (isEnabled s name) as [[]|]; try done.
    destruct (existsSync h (route_path h name)); [|done].
    destruct (require h (route_path h name)) as [[r'|]|]; try done.
    by intros [= ->].
  - by intros (-> & -> & ->).
Qed.

Lemma decision_not_dies (h : host) (s : service) (name : string) (r : router) :
  decision h s name = Some r → mount_dies h s name = false.
Proof.
  intros (Hon & He & Hr)%decision_Some. unfold mount_dies.
  by rewrite Hon, He, Hr.
Qed.

(** Whether a flag is on is decided by its own record alone. *)
Lemma flag_on_record (s : service) (n : string) :
  (∃ features, own (config s) "features" = Some features ∧ flag_on features n)
  ↔ ∃ record, flag_record s n = Some record
              ∧ own record "enabled" = Some (JBool true).
Proof.
  unfold flag_record. split.
  - intros (f & Hf & _ & record & Hrec & Hen). exists record. by rewrite Hf.
  - intros (record & Hrec & Hen).
    destruct (own (config s) "features") as [f|] eqn:Hf; [|done]. simpl in Hrec.
    exists f. split; [done|]. split; [|eauto].
    destruct (own_enabled_object _ _ Hen) as (props & -> & _).
    by eapply own_object_key.
Qed.

Lemma isEnabled_flag_record (s s' : service) (n : string) :
  flag_record s n = flag_record s' n → isEnabled s n = isEnabled s' n.
Proof.
  intros Heq.
  destruct (service_isEnabled_spec s n) as (b & -> & Hb).
  destruct (service_isEnabled_spec s' n) as (b' & -> & Hb').
  rewrite flag_on_record in Hb. rewrite flag_on_record in Hb'.
  rewrite Heq in Hb. f_equal. apply Bool.eq_true_iff_eq. by rewrite Hb, Hb'.
Qed.

(** C8, amended.  For every manifest and every permutation of the mount
    calls: the pass completes in one order exactly when it completes in the
    other, namely when no capability's mount statement dies (an enabled
    capability whose module throws null or undefined, or exports a truthy
    value that is no function); when it completes, both orders bind the same
    set of prefixes, those already bound and exactly the prefixes of the
    capabilities whose flag is enabled and whose route module exists, loads
    and exports a handler group.  What [getFeatureRouter] does for a
    capability depends on the manifest through that capability's own record
    only. *)
Theorem mount_order_independent (h : host) (s : service) (app : list layer)
    (caps caps' : list (string * string)) :
  caps ≡ₚ caps' →
  ((∃ app1, mount_pass h s app caps = Return app1)
   ↔ (∃ app2, mount_pass h s app caps' = Return app2))
  ∧ ((∃ app1, mount_pass h s app caps = Return app1)
     ↔ ∀ name prefix, (name, prefix) ∈ caps → mount_dies h s name = false)
  ∧ (∀ app1 app2,
       mount_pass h s app caps = Return app1 →
       mount_pass h s app caps' = Return app2 →
       bound_prefixes app1 = bound_prefixes app2
       ∧ ∀ p, p ∈ bound_prefixes app1 ↔
              p ∈ bound_prefixes app
              ∨ ∃ name r, (name, p) ∈ caps
                          ∧ isEnabled s name = Return true
                          ∧ provides h name r)
  ∧ (∀ s' name, flag_record s' name = flag_record s name →
                getFeatureRouter h s' name = getFeatureRouter h s name).
Proof.
  intros Hperm. split; [|split; [|split]].
  - rewrite !mount_pass_Return_iff. by setoid_rewrite Hperm.
  - apply mount_pass_Return_iff.
  - intros app1 app2 ->%mount_pass_Return_inv ->%mount_pass_Return_inv. split.
    + rewrite !bound_prefixes_app. f_equal.
      apply set_eq. intros p. rewrite !elem_of_bound_prefixes.
      setoid_rewrite elem_of_mounted_layers. by setoid_rewrite Hperm.
    + intros p. rewrite bound_prefixes_app, elem_of_union.
      rewrite (elem_of_bound_prefixes (mounted_layers _ _ _)).
      setoid_rewrite elem_of_mounted_layers. setoid_rewrite decision_Some.
      split; (intros [?|H]; [by left|right]); destruct H as (? & ? & ? & ?); eauto.
  - intros s' name Heq. unfold getFeatureRouter.
    by rewrite (isEnabled_flag_record _ _ _ Heq).
Qed.

End Mounting.

(** ** The server's routes *)

Section Routing.
Import Js Host Spec FeatureFlagService Server.

Lemma strip_prefix_Some (p s rest : string) :
  strip_prefix p s = Some rest → s = p +:+ rest.
Proof.
  revert s. induction p as [|c p IH]; intros [|d s]; simpl; try done.
  - by intros [= <-].
  - by intros [= <-].
  - destruct (Ascii.eqb_spec c d) as [->|]; [|done].
    intros H. by rewrite (IH _ H).
Qed.












Lemma dispatch_Fallback handler (rest : list layer) (req : request) :
  dispatch (Fallback handler :: rest) req = handler req.
Proof. done. Qed.

(** What start-up leaves behind when it completes. *)
Lemma boot_inv (h : host) (env : option string) (c : core)
    (featureFlags : service) (app : list layer) :
  boot h env c = Return (featureFlags, app) →
  featureFlags = new h (NODE_ENV env)
  ∧ app = core_layers c
          ++ option_list (Use "/api/search" <$> decision h featureFlags "advanced_search")
          ++ option_list (Use "/api/export" <$> decision h featureFlags "export_csv")
          ++ [Fallback not_found; ErrorHandler].
Proof.
  unfold boot. intros H.
  destruct (mount_pass h (new h (NODE_ENV env)) (core_layers c) capabilities)
    as [app'|] eqn:Hp; [|done].
  apply mount_pass_Return_inv in Hp as ->.
  rewrite bind_Return in H.
  destruct (getEnabledFeatures (new h (NODE_ENV env))); [|done].
  rewrite bind_Return in H. injection H as <- <-. split; [done|].
  by destruct (decision h _ "advanced_search"), (decision h _ "export_csv").
Qed.

(** Start-up completes exactly when neither mount statement dies and the
    listing of the enabled features in the [listen] callback returns. *)
Lemma boot_Return_iff (h : host) (env : option string) (c : core) :
  (∃ featureFlags app, boot h env c = Return (featureFlags, app))
  ↔ mount_dies h (new h (NODE_ENV env)) "advanced_search" = false
    ∧ mount_dies h (new h (NODE_ENV env)) "export_csv" = false
    ∧ ∃ enabledFeatures, getEnabledFeatures (new h (NODE_ENV env)) = Return enabledFeatures.
Proof.
  unfold boot. set (ff := new h (NODE_ENV env)).
  pose proof (mount_pass_Return_iff h ff (core_layers c) capabilities) as Hiff.
  split.
  - intros (ff' & app & H).
    destruct (mount_pass h ff (core_layers c) capabilities) as [app'|] eqn:Hp; [|done].
    pose proof (proj1 Hiff (ex_intro _ _ eq_refl)) as Hall.
    split; [apply (Hall _ "/api/search"), list_elem_of_In; simpl; auto|].
    split; [apply (Hall _ "/api/export"), list_elem_of_In; simpl; auto|].
    rewrite bind_Return in H. destruct (getEnabledFeatures ff); [eauto|done].
  - intros (H1 & H2 & l & Hl).
    destruct (proj2 Hiff) as [app' ->].
    { intros name prefix Hin%list_elem_of_In. simpl in Hin.
      destruct Hin as [[= <- <-]|[[= <- <-]|[]]]; done. }
    rewrite bind_Return, Hl, bind_Return. eauto.
Qed.













(** C10, what the code does.  For a capability whose flag is enabled: when
    its route module does not exist, or throws on load a value other than
    null and undefined, [getFeatureRouter] returns [null] and the mount
    statement leaves the application as it was; when the module throws
    [null] or [undefined], the [catch] of [getFeatureRouter] throws itself
    and so does the mount statement. *)
Theorem route_module_failure (h : host) (s : service)
    (app : list layer) (name prefix : string) :
  isEnabled s name = Return true →
  (existsSync h (route_path h name) = false →
   getFeatureRouter h s name = Return None
   ∧ mount h s app name prefix = Return app)
  ∧ (∀ thrown, existsSync h (route_path h name) = true →
               require h (route_path h name) = Raises thrown →
               if nullish thrown
               then ∃ e, getFeatureRouter h s name = Throw e
                         ∧ mount h s app name prefix = Throw e
               else getFeatureRouter h s name = Return None
                    ∧ mount h s app name prefix = Return app).
Proof.
  intros Hon. split.
  - intros He. pose proof (getFeatureRouter_absent h s name He) as Hnull.
    split; [done|]. unfold mount. by rewrite Hnull.
  - intros thrown He Hr. unfold mount.
    rewrite (getFeatureRouter_enabled _ _ _ Hon He), Hr.
    pose proof (get_message thrown) as Hm.
    destruct (nullish thrown).
    + destruct Hm as [e ->]. by exists e.
    + by destruct Hm as [v ->].
Qed.

End Routing.

Section ServerExamples.
Import Js Host Spec FeatureFlagService Server Examples.



(** C10, witness: the search module missing, the search module failing to
    parse, and the search module throwing [null]. *)
Lemma route_module_failure_witness :
  isEnabled (new unshipped "stage") "advanced_search" = Return true
  ∧ existsSync unshipped (route_path unshipped "advanced_search") = false
  ∧ getFeatureRouter unshipped (new unshipped "stage") "advanced_search" = Return None
  ∧ mount unshipped (new unshipped "stage") (core_layers demo_core)
      "advanced_search" "/api/search" = Return (core_layers demo_core)
  ∧ isEnabled (new crashing "stage") "advanced_search" = Return true
  ∧ existsSync crashing (route_path crashing "advanced_search") = true
  ∧ require crashing (route_path crashing "advanced_search")
    = Raises (error_object "SyntaxError" "Unexpected end of input")
  ∧ getFeatureRouter crashing (new crashing "stage") "advanced_search" = Return None
  ∧ isEnabled (new poisoned "stage") "advanced_search" = Return true
  ∧ existsSync poisoned (route_path poisoned "advanced_search") = true
  ∧ require poisoned (route_path poisoned "advanced_search") = Raises JNull
  ∧ ∃ e, getFeatureRouter poisoned (new poisoned "stage") "advanced_search" = Throw e
         ∧ mount poisoned (new poisoned "stage") (core_layers demo_core)
             "advanced_search" "/api/search" = Throw e.
Proof.
  destruct (route_module_failure unshipped (new unshipped "stage")
              (core_layers demo_core) "advanced_search" "/api/search" eq_refl)
    as [Hmissing _].
  destruct (route_module_failure crashing (new crashing "stage")
              (core_layers demo_core) "advanced_search" "/api/search" eq_refl)
    as [_ Hcrash].
  destruct (route_module_failure poisoned (new poisoned "stage")
              (core_layers demo_core) "advanced_search" "/api/search" eq_refl)
    as [_ Hnull].
  destruct (Hmissing eq_refl) as [H1 H2].
  destruct (Hcrash _ eq_refl eq_refl) as [H3 _].
  repeat (split; [done|]).
  exact (Hnull JNull eq_refl eq_refl).
Defined.

(** A search module that throws [null] stops the server at start-up. *)
Example null_throw_stops_startup :
  boot poisoned (Some "stage") demo_core
  = Throw (TypeError "Cannot read properties of undefined or null, reading message").
Proof. reflexivity. Qed.

(** So does a search module that exports no function. *)
Example placeholder_module_stops_startup :
  getFeatureRouter placeholder (new placeholder "stage") "advanced_search"
    = Return (Some (NotFunction empty_object))
  ∧ boot placeholder (Some "stage") demo_core
    = Throw (TypeError "Router.use() requires a middleware function").
Proof. split; reflexivity. Qed.

(** And so does a manifest with a record that is [null]: the mount pass goes
    through, the listing in the [listen] callback throws. *)
Example null_record_stops_startup :
  mount_pass unfinished (new unfinished "production") (core_layers demo_core) capabilities
    = Return (core_layers demo_core ++ [Use "/api/export" export_router])
  ∧ ∃ e, boot unfinished (Some "production") demo_core = Throw e.
Proof. split; [reflexivity|]. eexists. reflexivity. Qed.

(** C8, witness: the server's two mount calls and the same calls in the
    opposite order. *)
Lemma mount_order_independent_witness :
  capabilities ≡ₚ [("export_csv", "/api/export"); ("advanced_search", "/api/search")]
  ∧ mount_pass staged (new staged "stage") [] capabilities
    = Return [Use "/api/search" search_router; Use "/api/export" export_router]
  ∧ mount_pass staged (new staged "stage") []
      [("export_csv", "/api/export"); ("advanced_search", "/api/search")]
    = Return [Use "/api/export" export_router; Use "/api/search" search_router]
  ∧ bound_prefixes [Use "/api/search" search_router; Use "/api/export" export_router]
    = bound_prefixes [Use "/api/export" export_router; Use "/api/search" search_router].
Proof.
  assert (capabilities ≡ₚ
          [("export_csv", "/api/export"); ("advanced_search", "/api/search")])
    as Hperm by apply perm_swap.
  split; [done|].
  destruct (mount_order_independent staged (new staged "stage") [] _ _ Hperm)
    as (_ & _ & Hsame & _).
  split; [reflexivity|]. split; [reflexivity|].
  exact (proj1 (Hsame _ _ eq_refl eq_refl)).
Defined.

(** C8, as stated, fails: on stage both flags are enabled, yet without
    [routes/advanced_search.js] the bound prefixes are not the prefixes of
    the enabled capabilities. *)
Lemma bound_prefixes_miss_enabled_capability :
  isEnabled (new unshipped "stage") "advanced_search" = Return true
  ∧ isEnabled (new unshipped "stage") "export_csv" = Return true
  ∧ mount_pass unshipped (new unshipped "stage") [] capabilities
    = Return [Use "/api/export" export_router]
  ∧ bound_prefixes [Use "/api/export" export_router] = {["/api/export"]}
  ∧ bound_prefixes [Use "/api/export" export_router]
    ≠ list_to_set (capabilities.*2).
Proof.
  repeat split; done.
Qed.

End ServerExamples.

(** ** The client mirror *)

Section ClientMirror.
Import Js Spec FeatureFlagManager.

Lemma init_failed_features (m0 : manager) arg pathname response :
  fetch_failed response = true →
  features (init m0 arg pathname response) = empty_object.
Proof. unfold init, try_init. by destruct response as [e|[] [config|e]]. Qed.

Lemma isEnabled_no_flags (m : manager) (n : string) :
  features m = empty_object → isEnabled m n = Return false.
Proof.
  intros Hf. unfold isEnabled.
  destruct (enabled_lookup (features m) n) as (b & -> & Hb); [by rewrite Hf|].
  destruct b; [|done]. destruct Hb as [Hb _].
  destruct (Hb eq_refl) as [Hkey _]. rewrite Hf in Hkey.
  by apply elem_of_nil in Hkey.
Qed.

Lemma sweep_no_flags (m : manager) (el : element) :
  features m = empty_object →
  ∃ el', sweep m el = Return el'
         ∧ attributes el' = attributes el
         ∧ (tagged el → display el' = "none").
Proof.
  intros Hf. unfold sweep, tagged.
  destruct (getAttribute (attributes el) "data-feature") as [featureName|].
  - rewrite (isEnabled_no_flags m featureName Hf), bind_Return. eauto.
  - exists el. split; [done|]. split; [done|]. by intros [? ?].
Qed.

(** C7.  When the fetch of the published flag map fails, the mirror is left
    without flags: [isEnabled(n)] returns [false] for every name and throws
    nothing, and the sweep completes and leaves every element that carries a
    [data-feature] attribute with [display: none]. *)
Theorem client_fetch_failure (m0 : manager) (arg : option string)
    (pathname : string) (response : fetched) (document : list element) :
  fetch_failed response = true →
  (∀ n, isEnabled (init m0 arg pathname response) n = Return false)
  ∧ ∃ document',
      applyFeatureFlags (init m0 arg pathname response) document = Return document'
      ∧ Forall2 (λ el el', attributes el' = attributes el
                           ∧ (tagged el → display el' = "none"))
                document document'.
Proof.
  intros Hfail.
  pose proof (init_failed_features m0 arg pathname response Hfail) as Hf.
  set (m := init m0 arg pathname response) in *.
  split; [intros n; by apply isEnabled_no_flags|].
  unfold applyFeatureFlags.
  induction document as [|el document (document' & IH & Hall)].
  - exists []. by split.
  - destruct (sweep_no_flags m el Hf) as (el' & Hel & Hattrs & Hnone).
    exists (el' :: document'). split; [|by constructor].
    simpl. by rewrite Hel, bind_Return, IH.
Qed.

End ClientMirror.

(** ** The enabled set *)

Section EnabledSet.
Import Js Host Spec.

Lemma filterM_ext (p q : string → completion bool) (keys : list string) :
  (∀ k, k ∈ keys → p k = q k) → filterM p keys = filterM q keys.
Proof.
  induction keys as [|k keys IH]; intros Hpq; [done|]. simpl.
  rewrite (Hpq k) by apply list_elem_of_here.
  rewrite IH; [done|]. intros k' Hk'. apply Hpq. by apply list_elem_of_further.
Qed.

Lemma filterM_elem (p : string → completion bool) (q : string → bool)
    (keys : list string) :
  (∀ k, k ∈ keys → p k = Return (q k)) →
  ∃ kept, filterM p keys = Return kept
          ∧ ∀ n, n ∈ kept ↔ n ∈ keys ∧ q n = true.
Proof.
  induction keys as [|k keys IH]; intros Hp.
  - exists []. split; [done|]. intros n. split; [by intros ?%elem_of_nil|].
    by intros [?%elem_of_nil _].
  - destruct IH as (kept & Hkept & Hiff).
    { intros k' Hk'. apply Hp. by apply list_elem_of_further. }
    simpl. rewrite (Hp k) by apply list_elem_of_here.
    rewrite bind_Return, Hkept, bind_Return.
    eexists. split; [done|]. intros n.
    destruct (q k) eqn:Hq; rewrite ?elem_of_cons, Hiff.
    + split; [intros [->|[? ?]]; auto|intros [[->|?] ?]; auto].
    + split; [intros [? ?]; auto|intros [[->|?] ?]; [congruence|auto]].
Qed.

Lemma get_record (records : list (string * value)) (k : string) (r : value) :
  assoc k records = Some r → get (JObject records) k = Return r.
Proof. intros H. simpl. by rewrite H. Qed.

Lemma get_enabled_field (props : list (string * value)) :
  get (JObject props) "enabled"
  = Return (default JUndefined (assoc "enabled" props)).
Proof. reflexivity. Qed.

Lemma config_truthy (c f : value) : own c "features" = Some f → truthy c = true.
Proof.
  intros H. destruct (truthy c) eqn:Hc; [done|].
  by rewrite (falsy_no_features c Hc) in H.
Qed.

Lemma service_getEnabledFeatures_unfold (s : FeatureFlagService.service) (f : value) :
  own (FeatureFlagService.config s) "features" = Some f →
  truthy f = true →
  FeatureFlagService.getEnabledFeatures s
  = filterM (λ key, feature ← get f key;
                    enabled ← get feature "enabled";
                    Return (is_true enabled)) (own_keys f).
Proof.
  intros Hf Ht. unfold FeatureFlagService.getEnabledFeatures.
  rewrite (config_truthy _ _ Hf). cbn [negb].
  rewrite (get_features _ (config_truthy _ _ Hf)), Hf. cbn [default from_option id].
  rewrite bind_Return, Ht. cbn [negb].
  by destruct f.
Qed.

Lemma is_true_gate (records : list (string * value)) (n : string) :
  is_true (default JUndefined (gate records n)) = true
  ↔ gate records n = Some (JBool true).
Proof.
  split; [|by intros ->].
  destruct (gate records n) as [[| |[]| | | | |]|]; done.
Qed.

(** What [getEnabledFeatures] of the service computes over a flag map of
    object records. *)
Lemma service_getEnabledFeatures_spec (s : FeatureFlagService.service)
    (records : list (string * value)) :
  manifest_of s records →
  ∃ kept, FeatureFlagService.getEnabledFeatures s = Return kept
          ∧ ∀ n, n ∈ kept ↔ n ∈ records.*1 ∧ gate records n = Some (JBool true).
Proof.
  intros [Hf Hobj].
  rewrite (service_getEnabledFeatures_unfold s _ Hf eq_refl).
  destruct (filterM_elem
    (λ key, feature ← get (JObject records) key;
            enabled ← get feature "enabled";
            Return (is_true enabled))
    (λ key, is_true (default JUndefined (gate records key)))
    (own_keys (JObject records))) as (kept & -> & Hiff).
  - intros k Hk. destruct (assoc_key_Some k records Hk) as [r Hr].
    destruct (Hobj k r Hr) as [props ->].
    rewrite (get_record _ _ _ Hr), bind_Return, get_enabled_field, bind_Return.
    unfold gate. by rewrite Hr.
  - exists kept. split; [done|]. intros n. by rewrite Hiff, is_true_gate.
Qed.

Lemma service_isEnabled_gate (s : FeatureFlagService.service)
    (records : list (string * value)) (n : string) :
  own (FeatureFlagService.config s) "features" = Some (JObject records) →
  FeatureFlagService.isEnabled s n
  = Return (is_true (default JUndefined (gate records n))).
Proof.
  intros Hf. destruct (service_isEnabled_spec s n) as (b & -> & Hb). f_equal.
  rewrite flag_on_record in Hb. unfold flag_record in Hb. rewrite Hf in Hb.
  apply Bool.eq_true_iff_eq. rewrite Hb, is_true_gate. unfold gate.
  simpl. split.
  - intros (record & -> & Hen). done.
  - destruct (assoc n records) as [record|]; [|done]. eauto.
Qed.

(** C9.  Two manifests with the same flag names and the same [enabled]
    field for every flag, whatever their other fields, give the same answer
    to [isEnabled] for every name and the same set from
    [getEnabledFeatures]. *)
Theorem metadata_never_gates (s1 s2 : FeatureFlagService.service)
    (records1 records2 : list (string * value)) :
  manifest_of s1 records1 →
  manifest_of s2 records2 →
  (∀ n, n ∈ records1.*1 ↔ n ∈ records2.*1) →
  (∀ n, gate records1 n = gate records2 n) →
  (∀ n, FeatureFlagService.isEnabled s1 n = FeatureFlagService.isEnabled s2 n)
  ∧ ∃ kept1 kept2,
      FeatureFlagService.getEnabledFeatures s1 = Return kept1
      ∧ FeatureFlagService.getEnabledFeatures s2 = Return kept2
      ∧ ∀ n, n ∈ kept1 ↔ n ∈ kept2.
Proof.
  intros H1 H2 Hnames Hgates. split.
  - intros n. rewrite (service_isEnabled_gate s1 records1 n) by apply H1.
    rewrite (service_isEnabled_gate s2 records2 n) by apply H2.
    by rewrite Hgates.
  - destruct (service_getEnabledFeatures_spec s1 records1 H1) as (kept1 & -> & Hk1).
    destruct (service_getEnabledFeatures_spec s2 records2 H2) as (kept2 & -> & Hk2).
    exists kept1, kept2. split; [done|]. split; [done|].
    intros n. by rewrite Hk1, Hk2, Hnames, Hgates.
Qed.

(** The mirror's [isEnabled] and [getFeatureInfo] agree with the service's
    on every flag map. *)
Lemma mirror_isEnabled_agrees (f : value) (n : string) :
  truthy f = true →
  FeatureFlagManager.isEnabled (mirroring f) n
  = FeatureFlagService.isEnabled (serving f) n.
Proof.
  intros Hf. unfold FeatureFlagManager.isEnabled, FeatureFlagService.isEnabled.
  simpl. by rewrite Hf.
Qed.

Lemma mirror_getFeatureInfo_agrees (f : value) (n : string) :
  truthy f = true →
  FeatureFlagManager.getFeatureInfo (mirroring f) n
  = FeatureFlagService.getFeatureInfo (serving f) n.
Proof.
  intros Hf.
  unfold FeatureFlagManager.getFeatureInfo, FeatureFlagService.getFeatureInfo.
  simpl. by rewrite Hf.
Qed.

Lemma assoc_Some_In (k : string) (records : list (string * value)) (r : value) :
  assoc k records = Some r → (k, r) ∈ records.
Proof.
  induction records as [|[k' r'] records IH]; simpl; [done|].
  destruct (String.eqb_spec k' k) as [->|].
  - intros [= ->]. apply list_elem_of_here.
  - intros H. apply list_elem_of_further. auto.
Qed.

(** Their [getEnabledFeatures] agree on the flag maps of the interface,
    where every [enabled] is a boolean. *)
Lemma mirror_getEnabledFeatures_agrees (records : list (string * value)) :
  forallb (λ kv, well_formed_record kv.2) records = true →
  FeatureFlagManager.getEnabledFeatures (mirroring (JObject records))
  = FeatureFlagService.getEnabledFeatures (serving (JObject records)).
Proof.
  intros Hwf.
  rewrite (service_getEnabledFeatures_unfold (serving (JObject records))
             (JObject records) eq_refl eq_refl).
  unfold FeatureFlagManager.getEnabledFeatures.
  change (Object_keys (FeatureFlagManager.features (mirroring (JObject records))))
    with (Return (own_keys (JObject records))).
  rewrite bind_Return. apply filterM_ext. intros k Hk.
  destruct (assoc_key_Some k records Hk) as [r Hr].
  rewrite forallb_forall in Hwf.
  assert (well_formed_record r = true) as Hrec
    by (apply (Hwf (k, r)), list_elem_of_In, assoc_Some_In, Hr).
  unfold FeatureFlagManager.active.
  change (FeatureFlagManager.features (mirroring (JObject records)))
    with (JObject records).
  rewrite (get_record _ _ _ Hr), !bind_Return.
  destruct r as [| | | | | |props|]; try discriminate Hrec.
  rewrite get_enabled_field, !bind_Return.
  simpl in Hrec. by destruct (assoc "enabled" props) as [[| |[]| | | | |]|].
Qed.

End EnabledSet.

Section MirrorExamples.
Import Js Host Spec Examples.

(** C6, the divergence.  Over the flag map
    [{ dark_mode: { enabled: 'true' } }] the mirror's [getEnabledFeatures]
    lists [dark_mode] (it filters on [.enabled], by truthiness) while the
    service's returns nothing (it filters on [.enabled === true]); both
    [isEnabled('dark_mode')] answer [false].  The mirror reaches this state
    by an ordinary [init]. *)
Theorem mirror_lists_quoted_flag :
  FeatureFlagManager.features
    (FeatureFlagManager.init FeatureFlagManager.new None "/production/"
       (FeatureFlagManager.Response true (Return (JObject [("features", quoted_flag)]))))
    = quoted_flag
  ∧ FeatureFlagManager.getEnabledFeatures (mirroring quoted_flag) = Return ["dark_mode"]
  ∧ FeatureFlagService.getEnabledFeatures (serving quoted_flag) = Return []
  ∧ FeatureFlagManager.isEnabled (mirroring quoted_flag) "dark_mode" = Return false
  ∧ FeatureFlagService.isEnabled (serving quoted_flag) "dark_mode" = Return false.
Proof. repeat split; reflexivity. Qed.

(** C7, witness: the published map answers 404 on a page with two tagged
    sections. *)
Lemma client_fetch_failure_witness :
  fetch_failed (FeatureFlagManager.Response false (Throw (HostError "Unexpected token <")))
    = true
  ∧ (∀ n, FeatureFlagManager.isEnabled
            (FeatureFlagManager.init FeatureFlagManager.new None "/stage/"
               (FeatureFlagManager.Response false (Throw (HostError "Unexpected token <"))))
            n = Return false)
  ∧ ∃ document',
      FeatureFlagManager.applyFeatureFlags
        (FeatureFlagManager.init FeatureFlagManager.new None "/stage/"
           (FeatureFlagManager.Response false (Throw (HostError "Unexpected token <"))))
        page = Return document'
      ∧ Forall2 (λ el el', FeatureFlagManager.attributes el' = FeatureFlagManager.attributes el
                           ∧ (tagged el → FeatureFlagManager.display el' = "none"))
                page document'.
Proof.
  split; [reflexivity|].
  apply (client_fetch_failure FeatureFlagManager.new None "/stage/"
           (FeatureFlagManager.Response false (Throw (HostError "Unexpected token <")))
           page).
  reflexivity.
Defined.

Lemma gate_cons (k : string) (r : value) (records : list (string * value)) (n : string) :
  gate ((k, r) :: records) n
  = if String.eqb k n then own r "enabled" else gate records n.
Proof. unfold gate. simpl. by destruct (String.eqb k n). Qed.

Lemma records_are_objects (records : list (string * value)) :
  Forall (λ kv, ∃ props, kv.2 = JObject props) records →
  ∀ n r, assoc n records = Some r → ∃ props, r = JObject props.
Proof.
  intros Hall n r Hr. rewrite Forall_forall in Hall.
  apply (Hall (n, r)). by apply assoc_Some_In.
Qed.

(** C9, witness: the production manifest with and without its informational
    fields. *)
Lemma metadata_never_gates_witness :
  manifest_of (holding annotated) annotated_records
  ∧ manifest_of (holding prod_manifest) prod_records
  ∧ (∀ n, n ∈ annotated_records.*1 ↔ n ∈ prod_records.*1)
  ∧ (∀ n, gate annotated_records n = gate prod_records n)
  ∧ (∀ n, FeatureFlagService.isEnabled (holding annotated) n
          = FeatureFlagService.isEnabled (holding prod_manifest) n)
  ∧ ∃ kept1 kept2,
      FeatureFlagService.getEnabledFeatures (holding annotated) = Return kept1
      ∧ FeatureFlagService.getEnabledFeatures (holding prod_manifest) = Return kept2
      ∧ ∀ n, n ∈ kept1 ↔ n ∈ kept2.
Proof.
  assert (manifest_of (holding annotated) annotated_records) as H1.
  { split; [reflexivity|]. apply records_are_objects.
    repeat constructor; simpl; eauto. }
  assert (manifest_of (holding prod_manifest) prod_records) as H2.
  { split; [reflexivity|]. apply records_are_objects.
    repeat constructor; simpl; eauto. }
  assert (∀ n, n ∈ annotated_records.*1 ↔ n ∈ prod_records.*1) as Hnames
    by (intros n; reflexivity).
  assert (∀ n, gate annotated_records n = gate prod_records n) as Hgates.
  { intros n. unfold annotated_records, prod_records.
    rewrite !gate_cons. reflexivity. }
  repeat (split; [assumption|]).
  exact (metadata_never_gates _ _ _ _ H1 H2 Hnames Hgates).
Defined.

End MirrorExamples.

(** ** The service's queries taken together *)

Section ServiceQueries.
Import Js Host Spec FeatureFlagService.

Lemma filterM_Return_inv (p : string → completion bool) (keys kept : list string) :
  filterM p keys = Return kept →
  ∀ n, n ∈ kept ↔ n ∈ keys ∧ p n = Return true.
Proof.
  revert kept. induction keys as [|k keys IH]; intros kept; simpl.
  - intros [= <-] n. split; [by intros ?%elem_of_nil|by intros [?%elem_of_nil _]].
  - destruct (p k) as [b|e] eqn:Hk; [|done]. rewrite bind_Return.
    destruct (filterM p keys) as [kept'|e]; [|done]. rewrite bind_Return.
    intros [= <-] n. specialize (IH kept' eq_refl n).
    destruct b; rewrite ?elem_of_cons, IH.
    + split; [intros [->|[? ?]]; auto|intros [[->|?] ?]; auto].
    + split; [intros [? ?]; auto|intros [[->|?] ?]; [congruence|auto]].
Qed.

Lemma filterM_returns_iff (p : string → completion bool) (keys : list string) :
  (∃ kept, filterM p keys = Return kept) ↔ ∀ k, k ∈ keys → ∃ b, p k = Return b.
Proof.
  induction keys as [|k keys IH]; simpl.
  - split; [by intros _ k ?%elem_of_nil|eauto].
  - split.
    + intros [kept H] k' Hk'.
      destruct (p k) as [b|e] eqn:Hk; [|done]. rewrite bind_Return in H.
      destruct (filterM p keys) as [kept'|e] eqn:Hrest; [|done].
      apply elem_of_cons in Hk' as [->|Hk']; [eauto|].
      destruct IH as [IH _]. apply IH; eauto.
    + intros Hall. destruct (Hall k) as [b ->]; [apply list_elem_of_here|].
      destruct IH as [_ IH]. destruct IH as [kept' ->]; [|rewrite !bind_Return; eauto].
      intros k' Hk'. apply Hall. by apply list_elem_of_further.
Qed.

(** The callback of the service's [filter] accepts a key exactly when the
    key's own record has an own [enabled === true]. *)
Lemma strict_callback_true (f : value) (n : string) :
  truthy f = true →
  (feature ← get f n; enabled ← get feature "enabled"; Return (is_true enabled))
  = Return true
  ↔ ∃ record, own f n = Some record ∧ own record "enabled" = Some (JBool true).
Proof.
  intros Hf. rewrite (truthy_get f n Hf), bind_Return. split.
  - intros H.
    destruct (get (default (inherited f n) (own f n)) "enabled") as [e|] eqn:He; [|done].
    rewrite bind_Return in H. injection H as H.
    assert (e = JBool true) as -> by (by destruct e as [| |[]| | | | |]).
    apply get_enabled_true in He.
    destruct (own_enabled_object _ _ He) as (props & Hrec & _).
    destruct (own f n) as [record|] eqn:Hown; simpl in *;
      [eauto|by destruct (inherited_not_object f n props)].
  - intros (record & -> & Hen). simpl.
    apply get_enabled_true in Hen. by rewrite Hen.
Qed.

(** X1.  Whenever [getEnabledFeatures()] returns, it lists exactly the names
    for which [isEnabled] answers [true]. *)
Theorem getEnabledFeatures_lists_enabled (s : service) (kept : list string) :
  getEnabledFeatures s = Return kept →
  ∀ n, n ∈ kept ↔ isEnabled s n = Return true.
Proof.
  intros Hkept n.
  destruct (service_isEnabled_spec s n) as (b & Hb & Hiff). rewrite Hb.
  assert (Return b = Return true ↔ b = true) as -> by (split; congruence).
  rewrite Hiff. clear b Hb Hiff.
  unfold getEnabledFeatures in Hkept.
  destruct (truthy (config s)) eqn:Hc; simpl in Hkept.
  - rewrite (get_features _ Hc), bind_Return in Hkept.
    destruct (truthy (default JUndefined (own (config s) "features"))) eqn:Hf;
      simpl in Hkept.
    + destruct (own (config s) "features") as [f|] eqn:Hown; [|done].
      simpl in Hf, Hkept.
      assert (Object_keys f = Return (own_keys f)) as Hkeys by (by destruct f).
      rewrite Hkeys, bind_Return in Hkept.
      rewrite (filterM_Return_inv _ _ _ Hkept n), (strict_callback_true f n Hf).
      split.
      * intros [Hk Hrec]. exists f. by split.
      * intros (f' & [= <-] & Hk & Hrec). by split.
    + injection Hkept as <-. split; [by intros ?%elem_of_nil|].
      intros (f & Hown & Hon%flag_on_truthy). rewrite Hown in Hf. simpl in Hf.
      congruence.
  - injection Hkept as <-. split; [by intros ?%elem_of_nil|].
    rewrite (falsy_no_features _ Hc). by intros (? & ? & _).
Qed.

Lemma index_of_key_index (i len : nat) :
  i < len → index_of_key (index_key i) len = Some i.
Proof.
  intros Hlt. unfold index_of_key.
  destruct (List.find _ _) as [j|] eqn:Hfind.
  - apply find_some in Hfind as [_ Heq]. apply String.eqb_eq in Heq.
    unfold index_key in Heq. by apply (inj pretty) in Heq as ->.
  - apply find_none with (x := i) in Hfind; [|apply in_seq; lia].
    by rewrite String.eqb_refl in Hfind.
Qed.

Lemma string_get_lt (s : string) (i : nat) :
  i < String.length s → is_Some (String.get i s).
Proof.
  revert i. induction s as [|c s IH]; intros i; simpl; [lia|].
  destruct i as [|i]; [eauto|]. intros Hlt. apply IH. lia.
Qed.

(** Every key that [Object.keys] lists names an own property. *)
Lemma own_keys_own (f : value) (k : string) :
  k ∈ own_keys f → is_Some (own f k).
Proof.
  destruct f; simpl; try by intros ?%elem_of_nil.
  - intros (i & -> & Hi%list_elem_of_In%in_seq)%list_elem_of_fmap.
    rewrite index_of_key_index by lia. unfold char_at.
    destruct (string_get_lt s i) as [c ->]; [lia|eauto].
  - intros (i & -> & Hi%list_elem_of_In%in_seq)%list_elem_of_fmap.
    rewrite index_of_key_index by lia. apply lookup_lt_is_Some. lia.
  - apply assoc_key_Some.
Qed.

Lemma get_returns_iff (x : value) (k : string) :
  (∃ y, get x k = Return y) ↔ nullish x = false.
Proof. destruct x; simpl; split; try done; eauto; by intros [? ?]. Qed.

Lemma strict_callback_returns (f : value) (k : string) (r : value) :
  truthy f = true → own f k = Some r →
  (∃ b, (feature ← get f k; enabled ← get feature "enabled";
         Return (is_true enabled)) = Return b)
  ↔ nullish r = false.
Proof.
  intros Hf Hr. rewrite (truthy_get f k Hf), Hr, bind_Return. simpl.
  rewrite <- (get_returns_iff r "enabled"). split.
  - intros [b H]. destruct (get r "enabled"); [eauto|done].
  - intros [y ->]. rewrite bind_Return. eauto.
Qed.

(** X2.  Over a flag map [f], [getEnabledFeatures()] returns exactly when no
    listed record is [null] or [undefined]; one such record makes it throw,
    although [isEnabled] still answers [false] for that name. *)
Theorem getEnabledFeatures_null_record (s : service) (f : value) :
  own (config s) "features" = Some f →
  truthy f = true →
  ((∃ kept, getEnabledFeatures s = Return kept)
   ↔ ∀ k r, k ∈ own_keys f → own f k = Some r → nullish r = false)
  ∧ ∀ k r, k ∈ own_keys f → own f k = Some r → nullish r = true →
           (∃ e, getEnabledFeatures s = Throw e)
           ∧ isEnabled s k = Return false.
Proof.
  intros Hown Hf.
  assert ((∃ kept, getEnabledFeatures s = Return kept)
          ↔ ∀ k r, k ∈ own_keys f → own f k = Some r → nullish r = false) as Hiff.
  { rewrite (service_getEnabledFeatures_unfold s f Hown Hf), filterM_returns_iff.
    split.
    - intros Hall k r Hk Hr. apply (strict_callback_returns f k r Hf Hr). auto.
    - intros Hall k Hk. destruct (own_keys_own f k Hk) as [r Hr].
      apply (strict_callback_returns f k r Hf Hr). eauto. }
  split; [done|]. intros k r Hk Hr Hnull. split.
  - destruct (getEnabledFeatures s) as [kept|e] eqn:Hres; [|eauto].
    destruct Hiff as [Hiff _]. rewrite (Hiff (ex_intro _ kept eq_refl) k r Hk Hr) in Hnull.
    done.
  - destruct (service_isEnabled_spec s k) as (b & -> & Hb).
    destruct b; [|done]. destruct Hb as [Hb _].
    destruct (Hb eq_refl) as (f' & Hown' & _ & record & Hrec & Hen).
    rewrite Hown in Hown'. injection Hown' as <-.
    rewrite Hr in Hrec. injection Hrec as <-.
    by destruct r.
Qed.

(** X3.  A reload leaves the service in the state a fresh construction for
    the same environment would give, whatever the state was; reloading
    twice against an unchanged host is the same as reloading once. *)
Theorem reload_is_fresh_load (h : host) (s : service) :
  reload h s = new h (environment s)
  ∧ reload h (reload h s) = reload h s.
Proof.
  assert (∀ s', reload h s' = new h (environment s')) as Hfresh.
  { intros s'. unfold reload, new, loadConfiguration, try_load. simpl.
    destruct (readFileSync _ _); [|done].
    destruct (yaml_load _ _) as [doc|]; [|done].
    cbn [config set_config]. by destruct (_ ≫= _). }
  split; [done|].
  rewrite (Hfresh (reload h s)). unfold reload.
  by rewrite loadConfiguration_environment, <- (Hfresh s).
Qed.

(** X4.  After a load the service keeps its environment, records the path of
    that environment's file, and never holds [null] or [undefined] as its
    configuration: an empty source ends as the empty manifest. *)
Theorem loadConfiguration_invariants (h : host) (s : service) :
  environment (loadConfiguration h s) = environment s
  ∧ configPath (loadConfiguration h s) = Some (config_path h (environment s))
  ∧ nullish (config (loadConfiguration h s)) = false.
Proof.
  split; [apply loadConfiguration_environment|].
  unfold loadConfiguration, try_load.
  destruct (readFileSync _ _); [|done].
  destruct (yaml_load _ _) as [doc|]; [|done].
  cbn [config set_config].
  destruct (nullish doc) eqn:Hn.
  - by destruct doc.
  - by rewrite (log_line_returns _ Hn).
Qed.

(** X5.  Only the environment spelled [stage] selects the stage file: a
    service constructed for any other environment reads the production
    file and ends with the configuration a production service has. *)
Theorem other_environments_load_production (h : host) (env : string) :
  env ≠ "stage" →
  configPath (new h env) = Some (config_path h "production")
  ∧ config (new h env) = config (new h "production").
Proof.
  intros Henv.
  assert (config_path h env = config_path h "production") as Hpath.
  { unfold config_path, configFileName.
    by destruct (String.eqb_spec env "stage"). }
  unfold new, loadConfiguration, try_load. simpl. rewrite Hpath.
  destruct (readFileSync _ _); [|done].
  destruct (yaml_load _ _) as [doc|]; [|done].
  cbn [config set_config configPath set_configPath]. by destruct (_ ≫= _).
Qed.

(** X6.  [getFeatureInfo] never throws; for an enabled flag it returns the
    flag's record, and a flag for which it returns [null] is not enabled. *)
Theorem getFeatureInfo_isEnabled (s : service) (n : string) :
  ∃ info, getFeatureInfo s n = Return info
          ∧ (isEnabled s n = Return true →
             flag_record s n = Some info
             ∧ own info "enabled" = Some (JBool true))
          ∧ (info = JNull → isEnabled s n = Return false).
Proof.
  unfold getFeatureInfo, isEnabled.
  destruct (truthy (config s)) eqn:Hc; simpl; [|by exists JNull].
  rewrite (get_features _ Hc), !bind_Return.
  destruct (truthy (default JUndefined (own (config s) "features"))) eqn:Hf;
    simpl; [|by exists JNull].
  unfold flag_record.
  destruct (own (config s) "features") as [f|] eqn:Hown; [|done]. simpl in *.
  rewrite (truthy_get f n Hf), !bind_Return. eexists. split; [done|].
  unfold or_else.
  destruct (truthy (default (inherited f n) (own f n))) eqn:Hrec; simpl.
  - split; [|intros Heq; by rewrite Heq in Hrec].
    rewrite (truthy_get _ "enabled" Hrec), bind_Return. intros [= Ht].
    assert (get (default (inherited f n) (own f n)) "enabled" = Return (JBool true)) as Hg.
    { rewrite (truthy_get _ "enabled" Hrec). f_equal.
      destruct (default _ (own (default _ _) "enabled")) as [| |[]| | | | |]; done. }
    apply get_enabled_true in Hg.
    destruct (own_enabled_object _ _ Hg) as (props & Hobj & _).
    destruct (own f n) as [record|]; simpl in *;
      [done|by destruct (inherited_not_object f n props)].
  - split; [done|]. done.
Qed.


End ServiceQueries.

Section ServiceQueryExamples.
Import Js Host Spec FeatureFlagService Examples.

(** X1, witness: the production manifest. *)
Lemma getEnabledFeatures_lists_enabled_witness :
  getEnabledFeatures (holding prod_manifest) = Return ["export_csv"]
  ∧ ∀ n, n ∈ ["export_csv"] ↔ isEnabled (holding prod_manifest) n = Return true.
Proof.
  split; [reflexivity|].
  apply (getEnabledFeatures_lists_enabled (holding prod_manifest) ["export_csv"]).
  reflexivity.
Defined.

(** X2, witness: a manifest with an empty record. *)
Lemma getEnabledFeatures_null_record_witness :
  own (config (holding half_written)) "features" = Some (JObject half_written_records)
  ∧ truthy (JObject half_written_records) = true
  ∧ "advanced_search" ∈ own_keys (JObject half_written_records)
  ∧ own (JObject half_written_records) "advanced_search" = Some JNull
  ∧ (∃ e, getEnabledFeatures (holding half_written) = Throw e)
  ∧ isEnabled (holding half_written) "advanced_search" = Return false.
Proof.
  destruct (getEnabledFeatures_null_record (holding half_written)
              (JObject half_written_records) eq_refl eq_refl) as [_ Hnull].
  assert ("advanced_search" ∈ own_keys (JObject half_written_records)) as Hkey
    by (apply list_elem_of_In; simpl; auto).
  destruct (Hnull "advanced_search" JNull Hkey eq_refl eq_refl) as [Hthrow Hoff].
  repeat (split; [done|]). done.
Defined.

(** X5, witness: an environment called [staging]. *)
Lemma other_environments_load_production_witness :
  "staging" ≠ "stage"
  ∧ configPath (new shipped "staging") = Some (config_path shipped "production")
  ∧ config (new shipped "staging") = config (new shipped "production").
Proof.
  split; [discriminate|].
  apply (other_environments_load_production shipped "staging"). discriminate.
Defined.

End ServiceQueryExamples.

(** ** The server after start-up *)

Section ServerStartup.
Import Js Host Spec FeatureFlagService Server.

Lemma decision_empty_manifest (h : host) (s : service) (name : string) :
  config s = empty_manifest → decision h s name = None.
Proof. intros Hc. unfold decision. by rewrite (isEnabled_empty_manifest s name Hc). Qed.

Lemma mount_dies_empty_manifest (h : host) (s : service) (name : string) :
  config s = empty_manifest → mount_dies h s name = false.
Proof. intros Hc. unfold mount_dies. by rewrite (isEnabled_empty_manifest s name Hc). Qed.



(** X9.  When the flag source cannot be loaded at start-up the server still
    starts, with no capability mounted at all: only the base layers and the
    404 handler are registered. *)
Theorem boot_without_flags (h : host) (env : option string) (c : core) :
  load_raises h (NODE_ENV env) →
  boot h env c
  = Return (new h (NODE_ENV env),
            core_layers c ++ [Fallback not_found; ErrorHandler]).
Proof.
  intros Hr.
  assert (config (new h (NODE_ENV env)) = empty_manifest) as Hc
    by (by apply loadConfiguration_raises).
  destruct (proj2 (boot_Return_iff h env c)) as (featureFlags & app & Hboot).
  { split; [by apply mount_dies_empty_manifest|].
    split; [by apply mount_dies_empty_manifest|].
    exists []. by apply getEnabledFeatures_empty_manifest. }
  rewrite Hboot. apply boot_inv in Hboot as [-> ->].
  by rewrite !(decision_empty_manifest h _ _ Hc).
Qed.

End ServerStartup.

Section ServerStartupExamples.
Import Js Host Spec FeatureFlagService Server Examples.


(** X9, witness: a server started without its configuration file. *)
Lemma boot_without_flags_witness :
  load_raises missing (NODE_ENV None)
  ∧ boot missing None demo_core
    = Return (new missing "stage",
              core_layers demo_core ++ [Fallback not_found; ErrorHandler]).
Proof.
  assert (load_raises missing (NODE_ENV None)) as Hr
    by (apply raises_broken; by eapply source_unavailable).
  split; [done|]. exact (boot_without_flags missing None demo_core Hr).
Defined.

End ServerStartupExamples.

(** ** The client mirror beyond the failed fetch *)

Section MirrorQueries.
Import Js Spec FeatureFlagManager.

Lemma Object_keys_truthy (f : value) :
  nullish f = false → Object_keys f = Return (own_keys f).
Proof. by destruct f. Qed.

Lemma truthy_not_nullish (f : value) : truthy f = true → nullish f = false.
Proof. by destruct f. Qed.

Lemma active_returns (f : value) (k : string) (r : value) :
  nullish f = false → own f k = Some r →
  (∃ b, active f k = Return b) ↔ nullish r = false.
Proof.
  intros Hf Hr. unfold active.
  assert (get f k = Return r) as -> by (destruct f; try done; simpl in *; by rewrite Hr).
  rewrite bind_Return, <- (get_returns_iff r "enabled"). split.
  - intros [b H]. destruct (get r "enabled"); [eauto|done].
  - intros [y ->]. rewrite bind_Return. eauto.
Qed.

Lemma log_line_iff (f : value) :
  nullish f = false →
  (∃ u, (keys ← Object_keys f; _ ← filterM (active f) keys; Return ()) = Return u)
  ↔ ∀ k r, k ∈ own_keys f → own f k = Some r → nullish r = false.
Proof.
  intros Hf. rewrite (Object_keys_truthy f Hf), bind_Return.
  assert ((∃ u, (_ ← filterM (active f) (own_keys f); Return ()) = Return u)
          ↔ ∃ kept, filterM (active f) (own_keys f) = Return kept) as ->.
  { split.
    - intros [u H]. destruct (filterM _ _); [eauto|done].
    - intros [kept ->]. rewrite bind_Return. eauto. }
  rewrite filterM_returns_iff. split.
  - intros Hall k r Hk Hr. apply (active_returns f k r Hf Hr). auto.
  - intros Hall k Hk. destruct (own_keys_own f k Hk) as [r Hr].
    apply (active_returns f k r Hf Hr). eauto.
Qed.

(** X10.  After any [init], whatever was fetched, neither [getFeatureInfo]
    nor [getEnabledFeatures] throws. *)
Theorem init_queries_never_throw (m0 : manager) (arg : option string)
    (pathname : string) (response : fetched) (n : string) :
  (∃ info, getFeatureInfo (init m0 arg pathname response) n = Return info)
  ∧ (∃ kept, getEnabledFeatures (init m0 arg pathname response) = Return kept).
Proof.
  split.
  - unfold getFeatureInfo.
    rewrite (truthy_get _ n (init_features_truthy m0 arg pathname response)).
    rewrite bind_Return. eauto.
  - unfold getEnabledFeatures, init, try_init.
    destruct response as [e|[] [config|e]]; simpl; eauto.
    destruct (get config "features") as [f|e]; simpl; eauto.
    destruct (Object_keys (or_else f empty_object)) as [keys|e] eqn:Hkeys;
      simpl; [|eauto].
    destruct (filterM (active (or_else f empty_object)) keys) as [kept|e] eqn:Hkept;
      simpl; [|eauto].
    rewrite Hkeys, bind_Return, Hkept. eauto.
Qed.

(** X11.  Every name for which the mirror's [isEnabled] answers [true] is in
    the list its [getEnabledFeatures] returns. *)
Theorem mirror_enabled_is_listed (m : manager) (kept : list string) (n : string) :
  getEnabledFeatures m = Return kept →
  isEnabled m n = Return true →
  n ∈ kept.
Proof.
  unfold getEnabledFeatures, isEnabled. intros Hkept Hon.
  destruct (get (features m) n) as [feature|] eqn:Hget; [|done].
  rewrite bind_Return in Hon.
  destruct (truthy feature) eqn:Hfeature; simpl in Hon; [|done].
  destruct (get feature "enabled") as [e|] eqn:He; [|done].
  rewrite bind_Return in Hon. injection Hon as Hon.
  assert (e = JBool true) as -> by (by destruct e as [| |[]| | | | |]).
  assert (nullish (features m) = false) as Hf
    by (apply (get_returns_iff _ n); eauto).
  rewrite (Object_keys_truthy _ Hf), bind_Return in Hkept.
  apply (filterM_Return_inv _ _ _ Hkept n). split.
  - pose proof He as Hen. apply get_enabled_true in Hen.
    destruct (own_enabled_object _ _ Hen) as (props & -> & _).
    destruct (get_Return _ _ _ Hget) as [Hown|[_ Hinh]].
    + by eapply own_object_key.
    + by destruct (inherited_not_object (features m) n props).
  - unfold active. by rewrite Hget, bind_Return, He.
Qed.

(** X12.  When the published map is fetched, [loaded] becomes [true]; the
    fetched flag map is kept when none of its records is [null] or
    [undefined], and is replaced by [{}] when one is: the log line of
    [init] throws after the assignments. *)
Theorem init_keeps_or_discards (m0 : manager) (arg : option string)
    (pathname : string) (config f : value) :
  get config "features" = Return f →
  truthy f = true →
  loaded (init m0 arg pathname (Response true (Return config))) = true
  ∧ ((∀ k r, k ∈ own_keys f → own f k = Some r → nullish r = false) →
     features (init m0 arg pathname (Response true (Return config))) = f)
  ∧ (∀ k r, k ∈ own_keys f → own f k = Some r → nullish r = true →
     features (init m0 arg pathname (Response true (Return config))) = empty_object).
Proof.
  intros Hget Hf. unfold init, try_init. rewrite Hget.
  assert (or_else f empty_object = f) as Hor by (unfold or_else; by rewrite Hf).
  cbn [features set_features set_loaded]. rewrite Hor.
  pose proof (log_line_iff f (truthy_not_nullish f Hf)) as Hlog.
  destruct (keys ← Object_keys f; _ ← filterM (active f) keys; Return ())
    as [u|e] eqn:Hline; simpl.
  - split; [done|]. split; [done|]. intros k r Hk Hr Hnull.
    destruct Hlog as [Hlog _].
    rewrite (Hlog (ex_intro _ u eq_refl) k r Hk Hr) in Hnull. done.
  - split; [done|]. split; [|done]. intros Hall.
    destruct Hlog as [_ Hlog]. destruct (Hlog Hall) as [u Hu]. done.
Qed.

Lemma classList_add_mem (cl : list string) (c : string) :
  mem c (classList_add cl c) = true.
Proof.
  unfold classList_add. destruct (mem c cl) eqn:Hm; [done|].
  unfold mem. rewrite existsb_app. simpl. rewrite String.eqb_refl.
  by rewrite orb_true_r.
Qed.

Lemma classList_add_idem (cl : list string) (c : string) :
  classList_add (classList_add cl c) c = classList_add cl c.
Proof.
  unfold classList_add at 1. by rewrite classList_add_mem.
Qed.

Lemma classList_add_keeps (cl : list string) (c x : string) :
  x ∈ cl → x ∈ classList_add cl c.
Proof.
  unfold classList_add. destruct (mem c cl); [done|].
  intros. apply elem_of_app. by left.
Qed.

Lemma sweep_swept (m : manager) (el el' : element) :
  sweep m el = Return el' → swept m el el' ∧ sweep m el' = Return el'.
Proof.
  unfold sweep, swept.
  destruct (getAttribute (attributes el) "data-feature") as [featureName|] eqn:Hattr.
  - destruct (isEnabled m featureName) as [enabled|] eqn:Hon; [|done].
    rewrite bind_Return. intros [= <-].
    destruct enabled; simpl; rewrite Hattr, Hon, bind_Return, classList_add_idem;
      (split; [|done]); (split; [done|]);
      (split; [intros x; apply classList_add_keeps|]);
      eexists; (split; [done|]); (split; [done|]); apply classList_add_mem.
  - intros [= <-]. rewrite Hattr. by repeat split.
Qed.

(** X13.  When the sweep completes, every element keeps its attributes and
    its classes; a tagged element is shown (display cleared, class
    [feature-enabled] added) or hidden (display [none], class
    [feature-disabled] added) as [isEnabled] says for its feature, an
    untagged element is untouched; and sweeping the result again changes
    nothing. *)
Theorem applyFeatureFlags_sweeps (m : manager) (document document' : list element) :
  applyFeatureFlags m document = Return document' →
  Forall2 (swept m) document document'
  ∧ applyFeatureFlags m document' = Return document'.
Proof.
  unfold applyFeatureFlags. revert document'.
  induction document as [|el document IH]; intros document'; simpl.
  - intros [= <-]. by split.
  - destruct (sweep m el) as [el'|] eqn:Hel; [|done]. rewrite bind_Return.
    destruct (mapM (sweep m) document) as [rest|] eqn:Hrest; [|done].
    rewrite bind_Return. intros [= <-].
    destruct (sweep_swept m el el' Hel) as [Hswept Hagain].
    destruct (IH rest eq_refl) as [Hall Hrest'].
    split; [by constructor|]. simpl. by rewrite Hagain, bind_Return, Hrest'.
Qed.

Lemma strip_prefix_append (p rest : string) : Server.strip_prefix p (p +:+ rest) = Some rest.
Proof.
  induction p as [|c p IH]; simpl; [by destruct rest|].
  by rewrite Ascii.eqb_refl.
Qed.

Lemma includes_spec (hay needle : string) :
  includes hay needle = true ↔ ∃ pre post, hay = pre +:+ needle +:+ post.
Proof.
  induction hay as [|c hay IH]; simpl.
  - destruct (Server.strip_prefix needle "") as [rest|] eqn:Hs.
    + split; [|done]. intros _. exists "", rest. exact (strip_prefix_Some _ _ _ Hs).
    + split; [done|]. intros (pre & post & Heq).
      destruct pre; [|done].
      change ("" = needle +:+ post) in Heq.
      pose proof (strip_prefix_append needle post) as Hsp.
      rewrite <- Heq in Hsp. congruence.
  - destruct (Server.strip_prefix needle (String c hay)) as [rest|] eqn:Hs.
    + split; [|done]. intros _. exists "", rest. exact (strip_prefix_Some _ _ _ Hs).
    + rewrite IH. split.
      * intros (pre & post & ->). by exists (String c pre), post.
      * intros (pre & post & Heq). destruct pre as [|d pre].
        -- change (String c hay = needle +:+ post) in Heq.
           pose proof (strip_prefix_append needle post) as Hsp.
           rewrite <- Heq in Hsp. congruence.
        -- injection Heq as -> ->. eauto.
Qed.

(** X14.  The environment [init] settles on does not depend on the fetch: a
    non-empty argument is taken as it is; without one, a page whose path
    contains [/stage/] is stage and every other page is production. *)
Theorem init_environment (m0 : manager) (arg : option string)
    (pathname : string) (response : fetched) :
  (∀ e, arg = Some e → e ≠ "" →
        environment (init m0 arg pathname response) = e)
  ∧ (arg = None ∨ arg = Some "" →
     (∃ pre post, pathname = pre +:+ "/stage/" +:+ post) →
     environment (init m0 arg pathname response) = "stage")
  ∧ (arg = None ∨ arg = Some "" →
     ¬ (∃ pre post, pathname = pre +:+ "/stage/" +:+ post) →
     environment (init m0 arg pathname response) = "production").
Proof.
  assert (environment (init m0 arg pathname response)
          = detect_environment arg pathname) as ->.
  { unfold init, try_init.
    destruct response as [e|[] [config|e]]; simpl; try done.
    destruct (get config "features") as [f|e]; simpl; [|done].
    by destruct (_ ≫= _). }
  unfold detect_environment, auto_detect. repeat split.
  - intros e -> He. by destruct (String.eqb_spec e "").
  - intros Harg Hin. apply includes_spec in Hin.
    destruct Harg as [->| ->]; simpl; by rewrite Hin.
  - intros Harg Hout.
    assert (includes pathname "/stage/" = false) as Hno.
    { destruct (includes pathname "/stage/") eqn:Hi; [|done].
      by apply includes_spec in Hi. }
    destruct Harg as [->| ->]; simpl; rewrite Hno;
      by destruct (includes pathname "/production/").
Qed.

End MirrorQueries.

(** ** The page's own manager and its feature sections *)

Section PageManager.
Import Js Spec AppFeatureFlagManager.

Lemma get_optional_non_nullish (v : value) (k : string) :
  nullish v = false → get_optional v k = get v k.
Proof. by destruct v. Qed.

Lemma get_optional_returns (v : value) (k : string) :
  ∃ x, get_optional v k = Return x.
Proof. destruct v; simpl; eauto. Qed.

Lemma fallback_record (n : string) (r : value) :
  own (JObject [ ("advanced_search", JObject [("enabled", JBool false)]);
                 ("export_csv", JObject [("enabled", JBool false)]) ]) n = Some r →
  r = JObject [("enabled", JBool false)].
Proof.
  intros H%assoc_Some_In. apply list_elem_of_In in H. simpl in H.
  destruct H as [[= _ <-]|[[= _ <-]|[]]]; done.
Qed.

(** X15.  When [load()] throws (the fetch is rejected or the body does not
    parse) the manager holds the built-in default: [isEnabled] answers
    [false] for every name, the enabled list is empty, the environment is
    production, and [loaded] is as it was. *)
Theorem load_failure_defaults (m m' : manager) (response : FeatureFlagManager.fetched)
    (e : exn) :
  load m response = (m', Throw e) →
  flags m' = fallback
  ∧ loaded m' = loaded m
  ∧ (∀ n, isEnabled m' n = Return (JBool false))
  ∧ getEnabledFeatures m' = Return []
  ∧ getEnvironment m' = Return (JString "production").
Proof.
  intros Hload.
  assert (flags m' = fallback ∧ loaded m' = loaded m) as [Hflags Hloaded].
  { unfold load in Hload. destruct response as [e'|ok [doc|e']];
      injection Hload as <-; try done. }
  split; [done|]. split; [done|]. split; [|by (unfold getEnabledFeatures, getEnvironment; rewrite Hflags)].
  intros n. unfold isEnabled. rewrite Hflags.
  change (get fallback "features")
    with (Return (JObject [ ("advanced_search", JObject [("enabled", JBool false)]);
                            ("export_csv", JObject [("enabled", JBool false)]) ])).
  rewrite bind_Return.
  rewrite get_optional_non_nullish by done.
  rewrite truthy_get by done. rewrite bind_Return.
  destruct (own _ n) as [r|] eqn:Hown.
  - by rewrite (fallback_record n r Hown).
  - simpl. unfold inherited. by destruct (mem n _).
Qed.

(** X16.  Every name the page's manager lists as enabled gets the boolean
    [true] from its [isEnabled]. *)
Theorem listed_is_enabled (m : manager) (kept : list string) (n : string) :
  getEnabledFeatures m = Return kept →
  n ∈ kept →
  isEnabled m n = Return (JBool true).
Proof.
  unfold getEnabledFeatures, isEnabled. intros Hkept Hn.
  destruct (get (flags m) "features") as [f|] eqn:Hget; [|done].
  rewrite bind_Return in Hkept. rewrite bind_Return.
  destruct (truthy f) eqn:Hf; simpl in Hkept;
    [|injection Hkept as <-; by apply elem_of_nil in Hn].
  pose proof (truthy_not_nullish f Hf) as Hnn.
  rewrite (Object_keys_truthy f Hnn), bind_Return in Hkept.
  apply (filterM_Return_inv _ _ _ Hkept n) in Hn as [_ Hcb].
  apply (strict_callback_true f n Hf) in Hcb as (record & Hrec & Hen).
  rewrite (get_optional_non_nullish f n Hnn), (truthy_get f n Hf), Hrec, bind_Return.
  simpl. destruct (own_enabled_object _ _ Hen) as (props & -> & Hp).
  simpl. by rewrite Hp.
Qed.

(** X17.  [isEnabled] of the page's manager throws exactly when the stored
    document is [null] or [undefined]; [load()] stores whatever body parses,
    so the body [null] is taken as loaded and every later query throws. *)
Theorem isEnabled_throws_on_null_document (m : manager) (n : string) :
  ((∃ v, isEnabled m n = Return v) ↔ nullish (flags m) = false)
  ∧ ∀ ok doc, load m (FeatureFlagManager.Response ok (Return doc))
              = ({| flags := doc; loaded := true |}, Return doc).
Proof.
  split; [|done]. unfold isEnabled. split.
  - intros [v H]. apply (get_returns_iff _ "features").
    destruct (get (flags m) "features"); [eauto|done].
  - intros Hn. apply (get_returns_iff _ "features") in Hn as [f ->].
    rewrite bind_Return.
    destruct (get_optional_returns f n) as [feature ->]. rewrite bind_Return.
    destruct (get_optional_returns feature "enabled") as [en ->].
    rewrite bind_Return. eauto.
Qed.

End PageManager.

Section FeatureSections.
Import Js Spec UIManager.

Lemma mem_remove_same (cl : list string) (c : string) :
  mem c (classList_remove cl c) = false.
Proof.
  unfold mem, classList_remove. induction cl as [|x cl IH]; simpl; [done|].
  destruct (String.eqb_spec x c) as [->|Hne]; simpl; [done|].
  rewrite IH. destruct (String.eqb_spec c x); [congruence|done].
Qed.

Lemma mem_remove_other (cl : list string) (c x : string) :
  x ≠ c → mem x (classList_remove cl c) = mem x cl.
Proof.
  intros Hne. unfold mem, classList_remove.
  induction cl as [|y cl IH]; simpl; [done|].
  destruct (String.eqb_spec y c) as [->|Hyc]; simpl.
  - rewrite IH. destruct (String.eqb_spec x c); [congruence|done].
  - by rewrite IH.
Qed.

Lemma mem_add_other (cl : list string) (c x : string) :
  x ≠ c → mem x (FeatureFlagManager.classList_add cl c) = mem x cl.
Proof.
  intros Hne. unfold FeatureFlagManager.classList_add.
  destruct (mem c cl); [done|]. unfold mem. rewrite existsb_app. simpl.
  destruct (String.eqb_spec x c); [congruence|]. by rewrite !orb_false_r.
Qed.

Lemma and_enabled_returns (feature : value) : ∃ on, and_enabled feature = Return on.
Proof.
  unfold and_enabled. destruct (truthy feature) eqn:Hf; [|eauto].
  rewrite (truthy_get _ _ Hf). eauto.
Qed.

Lemma section_label_keys (prefix : string) :
  prefix +:+ "Section" ≠ prefix +:+ "Label".
Proof.
  intros Heq.
  pose proof (strip_prefix_append prefix "Section") as H.
  rewrite Heq, strip_prefix_append in H. discriminate H.
Qed.

(** X18.  [updateFeatureSection] throws exactly when the section or the
    label of the prefix is not among the cached elements.  When both are
    there it leaves the section with exactly one of the classes
    [feature-enabled] and [feature-disabled], the one its label shows
    ([ENABLED] when the feature object has a truthy [enabled], [DISABLED]
    otherwise), keeps every other class of the section, and touches no other
    element. *)
Theorem updateFeatureSection_exclusive (els : gmap string element)
    (featureName prefix : string) (feature : value) :
  ∃ on,
    and_enabled feature = Return on
    ∧ (els !! (prefix +:+ "Section") = None ∨ els !! (prefix +:+ "Label") = None →
       ∃ els' e, updateFeatureSection els featureName prefix feature = (els', Throw e))
    ∧ ∀ section label,
        els !! (prefix +:+ "Section") = Some section →
        els !! (prefix +:+ "Label") = Some label →
        ∃ els' section' label',
          updateFeatureSection els featureName prefix feature = (els', Return ())
          ∧ els' !! (prefix +:+ "Section") = Some section'
          ∧ els' !! (prefix +:+ "Label") = Some label'
          ∧ textContent label' = (if truthy on then "ENABLED" else "DISABLED")
          ∧ classList label'
            = ["feature-label"; if truthy on then "enabled" else "disabled"]
          ∧ mem "feature-enabled" (classList section') = truthy on
          ∧ mem "feature-disabled" (classList section') = negb (truthy on)
          ∧ (∀ x, x ≠ "feature-enabled" → x ≠ "feature-disabled" →
                  mem x (classList section') = mem x (classList section))
          ∧ textContent section' = textContent section
          ∧ ∀ k, k ≠ prefix +:+ "Section" → k ≠ prefix +:+ "Label" →
                 els' !! k = els !! k.
Proof.
  destruct (and_enabled_returns feature) as [on Hon]. exists on.
  split; [done|]. unfold updateFeatureSection. rewrite Hon.
  pose proof (section_label_keys prefix) as Hkeys.
  split.
  - intros [Hs|Hl].
    + rewrite Hs. destruct (truthy on); eauto.
    + rewrite Hl. destruct (truthy on), (els !! (prefix +:+ "Section")); eauto.
  - intros section label Hs Hl. rewrite Hs, Hl.
    destruct (truthy on); do 3 eexists; (split; [reflexivity|]).
    + rewrite lookup_insert_ne, lookup_insert_eq by done.
      split; [done|]. rewrite lookup_insert_eq. split; [done|].
      split; [done|]. split; [done|]. cbn [classList set_classList textContent].
      split; [rewrite mem_remove_other by done; apply classList_add_mem|].
      split; [apply mem_remove_same|].
      split; [intros x H1 H2; rewrite mem_remove_other, mem_add_other; done|].
      split; [done|].
      intros k H1 H2. by rewrite !lookup_insert_ne.
    + rewrite lookup_insert_ne, lookup_insert_eq by done.
      split; [done|]. rewrite lookup_insert_eq. split; [done|].
      split; [done|]. split; [done|]. cbn [classList set_classList textContent].
      split; [apply mem_remove_same|].
      split; [rewrite mem_remove_other by done; apply classList_add_mem|].
      split; [intros x H1 H2; rewrite mem_remove_other, mem_add_other; done|].
      split; [done|].
      intros k H1 H2. by rewrite !lookup_insert_ne.
Qed.

Lemma falsy_enabled (feature : value) :
  truthy feature = false →
  ∃ en, AppFeatureFlagManager.get_optional feature "enabled" = Return en
        ∧ truthy en = false.
Proof.
  intros Hf. destruct feature as [| |b|x|s| | |]; try discriminate Hf.
  - by exists JUndefined.
  - by exists JUndefined.
  - by exists JUndefined.
  - by exists JUndefined.
  - destruct s; [|done]. by exists JUndefined.
Qed.

(** What [feature && feature.enabled] makes of a flag's [getFeature] is
    truthy exactly when [isEnabled] answers something truthy. *)
Lemma and_enabled_answer (m : AppFeatureFlagManager.manager)
    (n : string) (answer feature : value) :
  AppFeatureFlagManager.isEnabled m n = Return answer →
  AppFeatureFlagManager.getFeature m n = Return feature →
  ∃ on, and_enabled feature = Return on ∧ truthy on = truthy answer.
Proof.
  unfold AppFeatureFlagManager.isEnabled, AppFeatureFlagManager.getFeature.
  destruct (get (AppFeatureFlagManager.flags m) "features") as [f|]; [|done].
  rewrite !bind_Return.
  destruct (AppFeatureFlagManager.get_optional f n) as [record|]; [|done].
  rewrite !bind_Return. intros Hanswer [= <-].
  unfold and_enabled, or_else.
  destruct (truthy record) eqn:Hrec.
  - rewrite (get_optional_non_nullish record "enabled")
      in Hanswer by (by apply truthy_not_nullish).
    destruct (get record "enabled") as [en|]; [|done].
    rewrite bind_Return in Hanswer. injection Hanswer as <-.
    exists en. rewrite Hrec. split; [done|]. unfold or_else.
    by destruct (truthy en) eqn:Hen.
  - exists JNull. split; [done|].
    destruct (falsy_enabled record Hrec) as (en & Hget & Hen).
    rewrite Hget, bind_Return in Hanswer. injection Hanswer as <-.
    unfold or_else. by rewrite Hen.
Qed.

(** X19.  The label a section gets from a flag's [getFeature] is [ENABLED]
    exactly when [isEnabled] of the same manager gives a truthy answer for
    that flag. *)
Theorem section_follows_isEnabled (m : AppFeatureFlagManager.manager)
    (n prefix : string) (answer feature : value) (els els' : gmap string element) :
  AppFeatureFlagManager.isEnabled m n = Return answer →
  AppFeatureFlagManager.getFeature m n = Return feature →
  updateFeatureSection els n prefix feature = (els', Return ()) →
  ∃ label', els' !! (prefix +:+ "Label") = Some label'
            ∧ (textContent label' = "ENABLED" ↔ truthy answer = true).
Proof.
  intros Hanswer Hfeature.
  destruct (and_enabled_answer m n answer feature Hanswer Hfeature)
    as (on & Hon & Htruthy).
  unfold updateFeatureSection. rewrite Hon, Htruthy.
  destruct (els !! (prefix +:+ "Section")) as [section|];
    [|by destruct (truthy answer)].
  destruct (els !! (prefix +:+ "Label")) as [label|];
    [|by destruct (truthy answer)].
  destruct (truthy answer); intros [= <-]; eexists;
    (split; [apply lookup_insert_eq|]); done.
Qed.

End FeatureSections.

(** ** The CSV writer *)

Section CsvWriter.
Import Js Spec ExportCsv.

Lemma double_quotes_snoc_cons (c : ascii) (rest tail : string) :
  double_quotes (String c rest) +:+ tail
  = if Ascii.eqb c quote
    then String quote (String quote (double_quotes rest +:+ tail))
    else String c (double_quotes rest +:+ tail).
Proof. simpl. by destruct (Ascii.eqb c quote). Qed.

(** Doubling the quotes and closing the field loses nothing. *)
Lemma closed_body_inj (a b : string) :
  double_quotes a +:+ String quote "" = double_quotes b +:+ String quote "" →
  a = b.
Proof.
  revert b. induction a as [|c a IH]; intros [|d b].
  - done.
  - rewrite double_quotes_snoc_cons.
    change (double_quotes "" +:+ String quote "") with (String quote "").
    destruct (Ascii.eqb_spec d quote) as [->|Hd]; [done|]. by intros [= ?].
  - rewrite double_quotes_snoc_cons.
    change (double_quotes "" +:+ String quote "") with (String quote "").
    destruct (Ascii.eqb_spec c quote) as [->|Hc]; [done|]. by intros [= ?].
  - rewrite !double_quotes_snoc_cons.
    destruct (Ascii.eqb_spec c quote) as [->|Hc],
             (Ascii.eqb_spec d quote) as [->|Hd].
    + intros [= H]. by rewrite (IH b H).
    + intros [= ? _]. congruence.
    + intros [= ? _]. congruence.
    + intros [= -> H]. by rewrite (IH b H).
Qed.

Lemma quoted_field_has_quote (text body : string) :
  text = String quote body → includes_char text quote = true.
Proof. by intros ->. Qed.

(** X20.  The escaping step is unambiguous: two texts that are written as the
    same field are the same text. *)
Theorem quote_field_injective (a b : string) :
  quote_field a = quote_field b → a = b.
Proof.
  unfold quote_field.
  destruct (includes_char a comma || includes_char a quote || includes_char a newline)
    eqn:Ha,
    (includes_char b comma || includes_char b quote || includes_char b newline)
    eqn:Hb.
  - intros [= H]. by apply closed_body_inj.
  - intros H. symmetry in H. apply quoted_field_has_quote in H.
    rewrite H in Hb. by rewrite orb_true_r in Hb.
  - intros H. apply quoted_field_has_quote in H.
    rewrite H in Ha. by rewrite orb_true_r in Ha.
  - done.
Qed.

End CsvWriter.

(** ** The mirror against the service *)

Section MirrorRefinement.
Import Js Spec.

(** X22.  Over one and the same flag map the mirror's [isEnabled] and
    [getFeatureInfo] give what the service's give, for every name. *)
Theorem mirror_queries_agree (f : value) (n : string) :
  truthy f = true →
  FeatureFlagManager.isEnabled (mirroring f) n
    = FeatureFlagService.isEnabled (serving f) n
  ∧ FeatureFlagManager.getFeatureInfo (mirroring f) n
    = FeatureFlagService.getFeatureInfo (serving f) n.
Proof.
  intros Hf. split;
    [by apply mirror_isEnabled_agrees|by apply mirror_getFeatureInfo_agrees].
Qed.

(** X23.  Over a flag map in which every record is an object with a boolean
    [enabled], the mirror's [getEnabledFeatures] returns what the service's
    returns. *)
Theorem mirror_enabled_set_agrees (records : list (string * value)) :
  forallb (λ kv, well_formed_record kv.2) records = true →
  FeatureFlagManager.getEnabledFeatures (mirroring (JObject records))
  = FeatureFlagService.getEnabledFeatures (serving (JObject records)).
Proof. apply mirror_getEnabledFeatures_agrees. Qed.

End MirrorRefinement.

Section MoreWitnesses.
Import Js Host Spec Examples MoreExamples.

(** X11, witness: the production flags. *)
Lemma mirror_enabled_is_listed_witness :
  FeatureFlagManager.getEnabledFeatures (mirroring (JObject prod_records))
    = Return ["export_csv"]
  ∧ FeatureFlagManager.isEnabled (mirroring (JObject prod_records)) "export_csv"
    = Return true
  ∧ "export_csv" ∈ ["export_csv"].
Proof.
  split; [reflexivity|]. split; [reflexivity|].
  exact (mirror_enabled_is_listed (mirroring (JObject prod_records))
           ["export_csv"] "export_csv" eq_refl eq_refl).
Defined.

(** X12, witness: the production manifest is kept, the manifest with an
    empty record is discarded. *)
Lemma init_keeps_or_discards_witness :
  get prod_manifest "features" = Return (JObject prod_records)
  ∧ truthy (JObject prod_records) = true
  ∧ FeatureFlagManager.loaded
      (FeatureFlagManager.init FeatureFlagManager.new None "/production/"
         (FeatureFlagManager.Response true (Return prod_manifest))) = true
  ∧ get half_written "features" = Return (JObject half_written_records)
  ∧ truthy (JObject half_written_records) = true
  ∧ FeatureFlagManager.loaded
      (FeatureFlagManager.init FeatureFlagManager.new None "/production/"
         (FeatureFlagManager.Response true (Return half_written))) = true
  ∧ FeatureFlagManager.features
      (FeatureFlagManager.init FeatureFlagManager.new None "/production/"
         (FeatureFlagManager.Response true (Return half_written))) = empty_object.
Proof.
  destruct (init_keeps_or_discards FeatureFlagManager.new None "/production/"
              prod_manifest (JObject prod_records) eq_refl eq_refl) as [Hl _].
  destruct (init_keeps_or_discards FeatureFlagManager.new None "/production/"
              half_written (JObject half_written_records) eq_refl eq_refl)
    as (Hl' & _ & Hdiscard).
  assert ("advanced_search" ∈ own_keys (JObject half_written_records)) as Hkey
    by (apply list_elem_of_In; simpl; auto).
  repeat (split; [done|]).
  exact (Hdiscard "advanced_search" JNull Hkey eq_refl eq_refl).
Defined.

(** X13, witness: the example page under the production flags. *)
Lemma applyFeatureFlags_sweeps_witness :
  FeatureFlagManager.applyFeatureFlags (mirroring (JObject prod_records)) page
    = Return page_in_production
  ∧ Forall2 (swept (mirroring (JObject prod_records))) page page_in_production
  ∧ FeatureFlagManager.applyFeatureFlags (mirroring (JObject prod_records))
      page_in_production = Return page_in_production.
Proof.
  split; [reflexivity|].
  exact (applyFeatureFlags_sweeps (mirroring (JObject prod_records)) page
           page_in_production eq_refl).
Defined.

(** X15, witness: a fetch that is rejected. *)
Lemma load_failure_defaults_witness :
  AppFeatureFlagManager.load AppFeatureFlagManager.new
    (FeatureFlagManager.Rejected (HostError "Failed to fetch"))
  = ({| AppFeatureFlagManager.flags := AppFeatureFlagManager.fallback;
        AppFeatureFlagManager.loaded := false |},
     Throw (HostError "Failed to fetch"))
  ∧ ∀ n, AppFeatureFlagManager.isEnabled
           {| AppFeatureFlagManager.flags := AppFeatureFlagManager.fallback;
              AppFeatureFlagManager.loaded := false |} n
         = Return (JBool false).
Proof.
  split; [reflexivity|].
  destruct (load_failure_defaults AppFeatureFlagManager.new _
              (FeatureFlagManager.Rejected (HostError "Failed to fetch"))
              (HostError "Failed to fetch") eq_refl) as (_ & _ & Hoff & _).
  exact Hoff.
Defined.

(** X16, witness: the production manifest. *)
Lemma listed_is_enabled_witness :
  AppFeatureFlagManager.getEnabledFeatures
    {| AppFeatureFlagManager.flags := prod_manifest;
       AppFeatureFlagManager.loaded := true |} = Return ["export_csv"]
  ∧ "export_csv" ∈ ["export_csv"]
  ∧ AppFeatureFlagManager.isEnabled
      {| AppFeatureFlagManager.flags := prod_manifest;
         AppFeatureFlagManager.loaded := true |} "export_csv" = Return (JBool true).
Proof.
  assert ("export_csv" ∈ ["export_csv"]) as Hin by apply list_elem_of_here.
  split; [reflexivity|]. split; [done|].
  exact (listed_is_enabled
           {| AppFeatureFlagManager.flags := prod_manifest;
              AppFeatureFlagManager.loaded := true |}
           ["export_csv"] "export_csv" eq_refl Hin).
Defined.

(** X19, witness: the search section under the production manifest. *)
Lemma section_follows_isEnabled_witness :
  AppFeatureFlagManager.isEnabled
    {| AppFeatureFlagManager.flags := prod_manifest;
       AppFeatureFlagManager.loaded := true |} "advanced_search" = Return (JBool false)
  ∧ AppFeatureFlagManager.getFeature
      {| AppFeatureFlagManager.flags := prod_manifest;
         AppFeatureFlagManager.loaded := true |} "advanced_search"
    = Return (JObject [("enabled", JBool false)])
  ∧ UIManager.updateFeatureSection search_elements "advanced_search" "search"
      (JObject [("enabled", JBool false)])
    = (search_elements, Return ())
  ∧ ∃ label', search_elements !! "searchLabel" = Some label'
              ∧ (UIManager.textContent label' = "ENABLED" ↔ truthy (JBool false) = true).
Proof.
  assert (UIManager.updateFeatureSection search_elements "advanced_search" "search"
            (JObject [("enabled", JBool false)])
          = (search_elements, Return ())) as Hupdate by (vm_compute; reflexivity).
  split; [reflexivity|]. split; [reflexivity|]. split; [exact Hupdate|].
  exact (section_follows_isEnabled
           {| AppFeatureFlagManager.flags := prod_manifest;
              AppFeatureFlagManager.loaded := true |}
           "advanced_search" "search" (JBool false) (JObject [("enabled", JBool false)])
           search_elements search_elements eq_refl eq_refl Hupdate).
Defined.

(** X20, witness: a title with a comma. *)
Lemma quote_field_injective_witness :
  ExportCsv.quote_field "Ship CSV export, now live"
    = ExportCsv.quote_field "Ship CSV export, now live"
  ∧ "Ship CSV export, now live" = "Ship CSV export, now live".
Proof.
  split; [reflexivity|].
  exact (quote_field_injective "Ship CSV export, now live"
           "Ship CSV export, now live" eq_refl).
Defined.

(** X22, witness: the quoted flag map. *)
Lemma mirror_queries_agree_witness :
  truthy quoted_flag = true
  ∧ FeatureFlagManager.isEnabled (mirroring quoted_flag) "dark_mode"
    = FeatureFlagService.isEnabled (serving quoted_flag) "dark_mode"
  ∧ FeatureFlagManager.getFeatureInfo (mirroring quoted_flag) "dark_mode"
    = FeatureFlagService.getFeatureInfo (serving quoted_flag) "dark_mode".
Proof.
  split; [reflexivity|].
  exact (mirror_queries_agree quoted_flag "dark_mode" eq_refl).
Defined.

(** X23, witness: the production flags. *)
Lemma mirror_enabled_set_agrees_witness :
  forallb (λ kv, well_formed_record kv.2) prod_records = true
  ∧ FeatureFlagManager.getEnabledFeatures (mirroring (JObject prod_records))
    = FeatureFlagService.getEnabledFeatures (serving (JObject prod_records)).
Proof.
  split; [reflexivity|].
  exact (mirror_enabled_set_agrees prod_records eq_refl).
Defined.

End MoreWitnesses.
